(** * ade_key: retrieval of the Adobe ADEPT user key

    A shallow embedding of [Calibre_Plugins/ineptepub_plugin/ade_key.py].
    The module has two mutually exclusive bodies selected by the host
    platform ([iswindows] / otherwise); each defines [retrieve_key].
    Python 2 byte strings ([str]) are lists of 8-bit characters, text used
    only as names (registry key names, file paths, XML tags) is [string],
    C unsigned integers are [Z] with the wrap-around written out, and the
    operating system is a record of oracles read by the code. Every call
    that leaves the interpreter is logged, so that the order of the
    accesses can be stated. *)

From Stdlib Require Import List String Ascii ZArith NArith Lia Bool Arith.
From Stdlib Require Import DecimalString.
Import ListNotations.
Local Open Scope Z_scope.
Local Open Scope list_scope.

Set Implicit Arguments.
Set Warnings "-register-all".

(* ================================================================== *)
(** * Python 2 primitives used by the module *)
(* ================================================================== *)

Module Py.

(** A Python 2 [str]: a sequence of bytes. *)
Definition str := list ascii.

Definition b (s : string) : str := list_ascii_of_string s.

Definition ord (c : ascii) : Z := Z.of_N (N_of_ascii c).
Definition chr (z : Z) : ascii := ascii_of_N (Z.to_N (z mod 256)).

Fixpoint str_eqb (x y : str) : bool :=
  match x, y with
  | [], [] => true
  | c :: x', d :: y' => Ascii.eqb c d && str_eqb x' y'
  | _, _ => false
  end.

(** Exceptions the module can let escape. [ADEPTError] is the one class
    the module defines (line 16); the others come from the interpreter and
    the libraries. *)
Inductive exn : Type :=
| ADEPTError (msg : string)
| WindowsError
| AttributeError
| IndexError
| ValueError
| struct_error
| binascii_Error
| IOError
| ParseError.

Inductive res (A : Type) : Type :=
| Ok (a : A)
| Raise (e : exn).
Arguments Ok {A} a.
Arguments Raise {A} e.

(** ** Slicing

    [s[start:stop]] with step 1: a negative bound counts from the end, and
    both bounds are clamped into [0, len(s)]; [None] as a bound is the
    default (0 for start, len(s) for stop). *)
Definition adjust (len : Z) (i : Z) : Z :=
  if i <? 0 then Z.max (i + len) 0 else Z.min i len.

Definition slice (A : Type) (s : list A) (start stop : option Z) : list A :=
  let len := Z.of_nat (List.length s) in
  let lo := match start with Some i => adjust len i | None => 0 end in
  let hi := match stop with Some i => adjust len i | None => len end in
  firstn (Z.to_nat (hi - lo)) (skipn (Z.to_nat lo) s).

(** [s[i]]: a negative index counts from the end; out of range raises
    [IndexError]. *)
Definition getitem (A : Type) (s : list A) (i : Z) : res A :=
  let len := Z.of_nat (List.length s) in
  let k := if i <? 0 then i + len else i in
  if (k <? 0) || (len <=? k) then Raise IndexError
  else match nth_error s (Z.to_nat k) with
       | Some x => Ok x
       | None => Raise IndexError
       end.

(** [s[::2]]: every second element, starting with the first. *)
Fixpoint stride2 (A : Type) (s : list A) : list A :=
  match s with
  | [] => []
  | x :: r => x :: match r with
                   | [] => []
                   | _ :: r' => stride2 r'
                   end
  end.

(** [xrange(lo, hi)] for naturals. *)
Definition xrange (lo hi : nat) : list nat := seq lo (hi - lo).

(** ** ["%04d" % (i,)]: decimal, left-padded with zeros to width 4. *)
Definition zfill (width : nat) (s : string) : string :=
  String.append
    (string_of_list_ascii (repeat "0"%char (width - String.length s))) s.

Definition fmt04d (i : nat) : string :=
  zfill 4 (NilZero.string_of_uint (Nat.to_uint i)).

(** ** [s.split(sep)] for a one-character separator. *)
Fixpoint split (sep : ascii) (s : string) : list string :=
  match s with
  | EmptyString => [EmptyString]
  | String c r =>
      if Ascii.eqb c sep then EmptyString :: split sep r
      else match split sep r with
           | [] => [String c EmptyString]
           | h :: t => String c h :: t
           end
  end.

(** ** [struct.pack] with a big-endian, unaligned format (['>...'])

    Only the two item kinds the module uses: [I] (unsigned 32-bit) and
    [<n>s] (a byte string truncated or padded with NUL bytes to [n]). *)
Inductive fmt_item : Type :=
| FmtI
| FmtS (n : nat).

Inductive arg : Type :=
| AInt (z : Z)
| AStr (s : str).

Definition pack_I_be (z : Z) : str :=
  [chr (Z.shiftr z 24); chr (Z.shiftr z 16); chr (Z.shiftr z 8); chr z].

Definition pack_s (n : nat) (s : str) : str :=
  firstn n s ++ repeat zero (n - List.length s).

Fixpoint struct_pack_be (fmt : list fmt_item) (args : list arg) : res str :=
  match fmt, args with
  | [], [] => Ok []
  | FmtI :: fmt', AInt z :: args' =>
      if (0 <=? z) && (z <? 2 ^ 32) then
        match struct_pack_be fmt' args' with
        | Ok r => Ok (pack_I_be z ++ r)
        | Raise e => Raise e
        end
      else Raise struct_error
  | FmtS n :: fmt', AStr s :: args' =>
      match struct_pack_be fmt' args' with
      | Ok r => Ok (pack_s n s ++ r)
      | Raise e => Raise e
      end
  | _, _ => Raise struct_error
  end.

(** [u.encode('utf-16-le')] of a sequence of UTF-16 code units (a narrow
    build stores a [unicode] that way): low byte, then high byte. *)
Definition encode_utf16le (u : list Z) : str :=
  flat_map (fun c => [chr c; chr (Z.shiftr c 8)]) u.

(** [os.path.join(a, b)] on a POSIX host. *)
Definition ends_with_slash (s : string) : bool :=
  match rev (list_ascii_of_string s) with
  | c :: _ => Ascii.eqb c "/"%char
  | [] => false
  end.

Definition starts_with_slash (s : string) : bool :=
  match s with
  | String c _ => Ascii.eqb c "/"%char
  | EmptyString => false
  end.

Definition path_join (a p : string) : string :=
  if starts_with_slash p then p
  else if String.eqb a EmptyString || ends_with_slash a then String.append a p
  else String.append a (String "/"%char p).

End Py.

(* ================================================================== *)
(** * Effects: a log of the calls made, and exceptions *)
(* ================================================================== *)

Module Effects.
Import Py.

(** One entry per call that leaves the interpreter. *)
Inductive event : Type :=
| CallGetSystemDirectoryW
| CallGetVolumeInformationW (root : string)
| ExecCpuid (selector : Z)
| CallGetUserNameW (size : nat)
| RegOpenKey (parent : list string) (sub : string)
| RegQueryValueEx (key : list string) (name : option string)
| CallCryptUnprotectData
| CallAesDecrypt
| CallFSFindFolder (domain : Z)
| CallIsFile (path : string)
| CallParse (path : string).

(** A computation: the calls it made, and how it ended. *)
Definition M (A : Type) : Type := (list event * res A)%type.

Definition ret (A : Type) (a : A) : M A := ([], Ok a).
Definition raise (A : Type) (e : exn) : M A := ([], Raise e).
Definition tell (e : event) : M unit := ([e], Ok tt).
Arguments raise {A} e.

Definition bind (A B : Type) (m : M A) (f : A -> M B) : M B :=
  match m with
  | (l, Ok a) => let (l', r) := f a in (l ++ l', r)
  | (l, Raise e) => (l, Raise e)
  end.

(** A pure step that may raise. *)
Definition lift (A : Type) (r : res A) : M A := ([], r).

(** [try: m  except WindowsError: <None>]: the statement guarded by the
    [try], with the handler's choice left to the caller. *)
Definition except_WindowsError (A : Type) (m : M A) : M (option A) :=
  match m with
  | (l, Ok a) => (l, Ok (Some a))
  | (l, Raise WindowsError) => (l, Ok None)
  | (l, Raise e) => (l, Raise e)
  end.

(** A computation preceded by calls already made. *)
Definition prepend (A : Type) (l : list event) (m : M A) : M A :=
  (l ++ fst m, snd m).

Definition trace (A : Type) (m : M A) : list event := fst m.
Definition outcome (A : Type) (m : M A) : res A := snd m.

End Effects.

Declare Scope py_scope.
Delimit Scope py_scope with py.
Notation "x <- m ;; k" := (Effects.bind m (fun x => k))
  (at level 61, m at next level, right associativity) : py_scope.
Notation "m ;;; k" := (Effects.bind m (fun _ => k))
  (at level 61, right associativity) : py_scope.

(* ================================================================== *)
(** * The Windows body (lines 19-241) *)
(* ================================================================== *)

Module Windows.
Import Py Effects.
Local Open Scope py_scope.

(** ** The registry as [_winreg] shows it

    A key holds named values (the default value has the empty name) and
    named subkeys. *)
Inductive RegKey : Type :=
| Key (values : list (string * str)) (subkeys : list (string * RegKey)).

Definition values (k : RegKey) : list (string * str) :=
  match k with Key v _ => v end.
Definition subkeys (k : RegKey) : list (string * RegKey) :=
  match k with Key _ s => s end.

Fixpoint assoc (V : Type) (name : string) (l : list (string * V)) : option V :=
  match l with
  | [] => None
  | (n, v) :: l' => if String.eqb n name then Some v else assoc name l'
  end.

Fixpoint open_path (k : RegKey) (p : list string) : option RegKey :=
  match p with
  | [] => Some k
  | n :: p' =>
      match assoc n (subkeys k) with
      | Some k' => open_path k' p'
      | None => None
      end
  end.

(** An open key handle: where it is, and the key it denotes. *)
Record HKEY : Type := { hpath : list string; hnode : RegKey }.

Definition backslash : ascii := "\"%char.

(** [winreg.OpenKey(key, sub_key)]: [WindowsError] when there is no such
    subkey. *)
Definition OpenKey (key : HKEY) (sub : string) : M HKEY :=
  tell (RegOpenKey (hpath key) sub) ;;;
  match open_path (hnode key) (split backslash sub) with
  | Some k => ret {| hpath := hpath key ++ split backslash sub; hnode := k |}
  | None => raise WindowsError
  end.

(** The handle [OpenKey] returns for the child under a four-digit index. *)
Definition child_handle (parent : HKEY) (i : nat) (k : RegKey) : HKEY :=
  {| hpath := hpath parent ++ [fmt04d i]; hnode := k |}.

(** [winreg.QueryValueEx(key, value_name)[0]]; [None] names the default
    value. [WindowsError] when the key has no such value. *)
Definition QueryValueEx (key : HKEY) (name : option string) : M str :=
  tell (RegQueryValueEx (hpath key) name) ;;;
  match assoc (match name with Some n => n | None => EmptyString end)
              (values (hnode key)) with
  | Some d => ret d
  | None => raise WindowsError
  end.

(** ** PyCrypto's AES in CBC mode

    The block primitive is the library's; the chaining is written out.
    [AES.new(key, AES.MODE_CBC)] without an IV argument uses sixteen zero
    bytes. *)
Record AES : Type := { decrypt_block : str -> str -> str }.

Definition block_size : nat := 16.

Definition xor_str (x y : str) : str :=
  map (fun p => chr (Z.lxor (ord (fst p)) (ord (snd p)))) (combine x y).

Fixpoint blocks (fuel : nat) (s : str) : list str :=
  match fuel with
  | O => []
  | S f =>
      match s with
      | [] => []
      | _ :: _ => firstn block_size s :: blocks f (skipn block_size s)
      end
  end.

Fixpoint cbc_chain (D : str -> str) (prev : str) (cs : list str) : str :=
  match cs with
  | [] => []
  | c :: cs' => xor_str (D c) prev ++ cbc_chain D c cs'
  end.

Definition default_IV : str := repeat zero block_size.

Definition cbc_decrypt (aes : AES) (key iv data : str) : str :=
  cbc_chain (decrypt_block aes key) iv (blocks (List.length data) data).

Definition valid_key_length (n : nat) : bool :=
  Nat.eqb n 16 || Nat.eqb n 24 || Nat.eqb n 32.

(** [_aes.new(key, _aes.MODE_CBC).decrypt(data)] *)
Definition new_CBC_decrypt (aes : AES) (key data : str) : M str :=
  tell CallAesDecrypt ;;;
  if valid_key_length (List.length key) then
    if Nat.eqb (Nat.modulo (List.length data) block_size) 0 then
      ret (cbc_decrypt aes key default_IV data)
    else raise ValueError
  else raise ValueError.

(** ** The host: everything the code reads from outside *)
Record Host : Type := {
  (** [_aes]: the imported module, or [None] after [ImportError]. *)
  _aes : option AES;
  (** What [GetSystemDirectoryW] writes into the buffer. *)
  SystemDirectory : string;
  (** What [GetVolumeInformationW] writes into [vsn] for a root path. *)
  VolumeSerialNumber : string -> Z;
  (** The [cpuid] instruction: selector to (eax, ebx, ecx, edx). *)
  cpuid : Z -> Z * Z * Z * Z;
  (** The user name as UTF-16 code units. *)
  UserName : list Z;
  (** The tree under [HKEY_CURRENT_USER]. *)
  HKEY_CURRENT_USER : RegKey;
  (** [crypt32.CryptUnprotectData]: [None] when the call returns 0. *)
  crypt32_CryptUnprotectData : str -> str -> option str;
  (** The ['base64'] codec: [None] stands for [binascii.Error]. *)
  base64_decode : str -> option str
}.

Definition DEVICE_KEY_PATH : string := "Software\Adobe\Adept\Device".
Definition PRIVATE_LICENCE_KEY_PATH : string := "Software\Adobe\Adept\Activation".

(** A [c_uint] holds its value modulo 2^32. *)
Definition c_uint (z : Z) : Z := z mod 2 ^ 32.

(** Lines 40-49 *)
Definition GetSystemDirectory (h : Host) : M string :=
  tell CallGetSystemDirectoryW ;;; ret (SystemDirectory h).

(** Lines 51-63 *)
Definition GetVolumeSerialNumber (h : Host) (path : string) : M Z :=
  tell (CallGetVolumeInformationW path) ;;;
  ret (c_uint (VolumeSerialNumber h path)).

(** Lines 65-77: the buffer starts at 32 characters and doubles while the
    call reports that the name and its terminator do not fit. *)
Fixpoint GetUserName_sizes (fuel need size : nat) : list nat :=
  match fuel with
  | O => [size]
  | S f => if Nat.leb need size then [size]
           else size :: GetUserName_sizes f need (2 * size)
  end.

Definition GetUserName (h : Host) : M str :=
  let name := UserName h in
  (map CallGetUserNameW
       (GetUserName_sizes (List.length name) (S (List.length name)) 32),
   Ok (stride2 (encode_utf16le name))).

(** Lines 119-170. [CPUID0_INSNS] runs [cpuid] with eax = 0 and stores
    ebx, edx, ecx (each a little-endian 32-bit store) into the 12-byte
    buffer; [CPUID1_INSNS] runs it with eax = 1 and returns eax. Both
    pointer widths run the same instruction on the same registers. *)
Definition le32 (z : Z) : str :=
  [chr z; chr (Z.shiftr z 8); chr (Z.shiftr z 16); chr (Z.shiftr z 24)].

Definition cpuid0 (h : Host) : M str :=
  tell (ExecCpuid 0) ;;;
  match cpuid h 0 with
  | (_, ebx, ecx, edx) => ret (le32 ebx ++ le32 edx ++ le32 ecx)
  end.

Definition cpuid1 (h : Host) : M Z :=
  tell (ExecCpuid 1) ;;;
  match cpuid h 1 with
  | (eax, _, _, _) => ret (c_uint eax)
  end.

(** Lines 177-193 *)
Definition CryptUnprotectData (h : Host) (indata entropy : str) : M str :=
  tell CallCryptUnprotectData ;;;
  match crypt32_CryptUnprotectData h indata entropy with
  | Some outdata => ret outdata
  | None => raise (ADEPTError "Failed to decrypt user key key (sic)")
  end.

(** Lines 198-203: the entropy handed to [CryptUnprotectData]. *)
Definition entropy_format : list fmt_item := [FmtI; FmtS 12; FmtS 3; FmtS 13].

Definition retrieve_key_entropy (h : Host) : M str :=
  sysdir <- GetSystemDirectory h ;;
  let root := String.append (hd EmptyString (split backslash sysdir))
                            (String backslash EmptyString) in
  serial <- GetVolumeSerialNumber h root ;;
  vendor <- cpuid0 h ;;
  eax <- cpuid1 h ;;
  packed <- lift (struct_pack_be [FmtI] [AInt eax]) ;;
  let signature := slice packed (Some 1) None in
  user <- GetUserName h ;;
  lift (struct_pack_be entropy_format
          [AInt serial; AStr vendor; AStr signature; AStr user]).

(** Lines 224-233: [for j in xrange(0, 16)] under one depth-1 key.
    [userkey] is the variable of that name; [rest] is what is left of the
    range. *)
Fixpoint scan_plkparent (plkparent : HKEY) (rest : list nat)
    (userkey : option str) : M (option str) :=
  match rest with
  | [] => ret userkey
  | j :: rest' =>
      opened <- except_WindowsError (OpenKey plkparent (fmt04d j)) ;;
      match opened with
      | None => ret userkey                                   (* break *)
      | Some plkkey =>
          ktype <- QueryValueEx plkkey None ;;
          if negb (str_eqb ktype (b "privateLicenseKey")) then
            scan_plkparent plkparent rest' userkey              (* continue *)
          else
            value <- QueryValueEx plkkey (Some "value"%string) ;;
            ret (Some value)                                  (* break *)
      end
  end.

(** Lines 216-235: [for i in xrange(0, 16)] under the activation key. *)
Fixpoint scan_plkroot (plkroot : HKEY) (rest : list nat)
    (userkey : option str) : M (option str) :=
  match rest with
  | [] => ret userkey
  | i :: rest' =>
      opened <- except_WindowsError (OpenKey plkroot (fmt04d i)) ;;
      match opened with
      | None => ret userkey                                   (* break *)
      | Some plkparent =>
          ktype <- QueryValueEx plkparent None ;;
          if negb (str_eqb ktype (b "credentials")) then
            scan_plkroot plkroot rest' userkey                 (* continue *)
          else
            userkey' <- scan_plkparent plkparent (xrange 0 16) userkey ;;
            match userkey' with
            | Some _ => ret userkey'                          (* break *)
            | None => scan_plkroot plkroot rest' userkey'
            end
      end
  end.

Definition cuser (h : Host) : HKEY :=
  {| hpath := []; hnode := HKEY_CURRENT_USER h |}.

(** Lines 211-237: open the activation key, walk it, insist on a result. *)
Definition retrieve_key_userkey (h : Host) : M str :=
  opened <- except_WindowsError (OpenKey (cuser h) PRIVATE_LICENCE_KEY_PATH) ;;
  match opened with
  | None => raise (ADEPTError "Could not locate ADE activation")
  | Some plkroot =>
      userkey <- scan_plkroot plkroot (xrange 0 16) None ;;
      match userkey with
      | None => raise (ADEPTError "Could not locate privateLicenseKey")
      | Some userkey => ret userkey
      end
  end.

(** Line 240: [userkey[26:-ord(userkey[-1])]] *)
Definition depad (userkey : str) : res str :=
  match getitem userkey (-1) with
  | Ok last => Ok (slice userkey (Some 26) (Some (- ord last)))
  | Raise e => Raise e
  end.

(** [userkey.decode('base64')] *)
Definition decode_base64 (h : Host) (s : str) : res str :=
  match base64_decode h s with
  | Some d => Ok d
  | None => Raise binascii_Error
  end.

(** Lines 238-241 *)
Definition retrieve_key_unwrap (h : Host) (aes : AES) (keykey userkey : str)
    : M str :=
  userkey <- lift (decode_base64 h userkey) ;;
  userkey <- new_CBC_decrypt aes keykey userkey ;;
  lift (depad userkey).

(** Lines 195-241 *)
Definition retrieve_key (h : Host) : M str :=
  match _aes h with
  | None => raise (ADEPTError "Couldn't load PyCrypto")
  | Some aes =>
      entropy <- retrieve_key_entropy h ;;
      opened <- except_WindowsError (OpenKey (cuser h) DEVICE_KEY_PATH) ;;
      match opened with
      | None => raise (ADEPTError "Adobe Digital Editions not activated")
      | Some regkey =>
          device <- QueryValueEx regkey (Some "key"%string) ;;
          keykey <- CryptUnprotectData h device entropy ;;
          userkey <- retrieve_key_userkey h ;;
          retrieve_key_unwrap h aes keykey userkey
      end
  end.

End Windows.

(* ================================================================== *)
(** * The other body (lines 243-283) *)
(* ================================================================== *)

Module Mac.
Import Py Effects.
Local Open Scope py_scope.

(** ** [xml.etree.ElementTree] elements *)
Inductive Element : Type :=
| Elem (tag : string) (text : option str) (children : list Element).

Definition tag (e : Element) : string :=
  match e with Elem t _ _ => t end.
Definition text (e : Element) : option str :=
  match e with Elem _ t _ => t end.
Definition children (e : Element) : list Element :=
  match e with Elem _ _ c => c end.

(** [e.iter(tag)]: [e] and everything below it, in document order,
    restricted to one tag. *)
Fixpoint iter (t : string) (e : Element) : list Element :=
  match e with
  | Elem tg _ cs =>
      (if String.eqb tg t then [e] else []) ++ flat_map (iter t) cs
  end.

(** The two path steps the module uses: [//tag] (any element below the
    context element) and [/tag] (a child of it). *)
Inductive step : Type :=
| Descendant (t : string)
| Child (t : string).

Definition select (s : step) (context : list Element) : list Element :=
  match s with
  | Descendant t => flat_map (fun e => flat_map (iter t) (children e)) context
  | Child t =>
      flat_map (fun e => filter (fun c => String.eqb (tag c) t) (children e))
               context
  end.

Definition findall (root : Element) (path : list step) : list Element :=
  fold_left (fun context s => select s context) path [root].

(** [tree.findtext(path)]: the text of the first match ([''] when that
    element has none), [None] when nothing matches. *)
Definition findtext (root : Element) (path : list step) : option str :=
  match findall root path with
  | [] => None
  | e :: _ => Some (match text e with Some t => t | None => [] end)
  end.

(** ** The host *)
Record Host : Type := {
  (** [Carbon.Folder.FSFindFolder] followed by [Carbon.File.pathname];
      [None] stands for [MacOS.Error]. *)
  FSFindFolder : Z -> option string;
  (** [os.path.isfile] *)
  isfile : string -> bool;
  (** [etree.parse]: [None] when the file cannot be read as XML. *)
  parse : string -> option Element;
  (** The ['base64'] codec: [None] stands for [binascii.Error]. *)
  base64_decode : str -> option str
}.

Definition ACTIVATION_PATH : string := "Adobe/Digital Editions/activation.dat".
Definition NSMAP_adept : string := "http://ns.adobe.com/adept".
Definition kUserDomain : Z := -32763.
Definition kLocalDomain : Z := -32765.

(** Lines 255-260 *)
Definition find_folder (h : Host) (domain : Z) : M (option string) :=
  tell (CallFSFindFolder domain) ;;; ret (FSFindFolder h domain).

(** Lines 262-271 *)
Fixpoint find_app_support_file_in (h : Host) (domains : list Z)
    (subpath : string) : M (option string) :=
  match domains with
  | [] => ret None
  | domain :: domains' =>
      found <- find_folder h domain ;;
      match found with
      | None => find_app_support_file_in h domains' subpath   (* continue *)
      | Some path =>
          let path := path_join path subpath in
          tell (CallIsFile path) ;;;
          if isfile h path then ret (Some path)
          else find_app_support_file_in h domains' subpath
      end
  end.

Definition find_app_support_file (h : Host) (subpath : string)
    : M (option string) :=
  find_app_support_file_in h [kUserDomain; kLocalDomain] subpath.

(** [adept = lambda tag: '{%s}%s' % (NSMAP['adept'], tag)] *)
Definition adept (t : string) : string :=
  String.append (String "{"%char NSMAP_adept) (String "}"%char t).

(** ['//%s/%s' % (adept('credentials'), adept('privateLicenseKey'))] *)
Definition expr : list step :=
  [Descendant (adept "credentials"); Child (adept "privateLicenseKey")].

(** [userkey.decode('base64')]: [userkey] may be [None], which has no
    such attribute. *)
Definition decode_base64 (h : Host) (userkey : option str) : res str :=
  match userkey with
  | None => Raise AttributeError
  | Some s =>
      match base64_decode h s with
      | Some d => Ok d
      | None => Raise binascii_Error
      end
  end.

(** Lines 273-283 *)
Definition retrieve_key (h : Host) : M str :=
  actpath <- find_app_support_file h ACTIVATION_PATH ;;
  match actpath with
  | None => raise (ADEPTError "Could not locate ADE activation")
  | Some actpath =>
      tell (CallParse actpath) ;;;
      match parse h actpath with
      | None => raise ParseError
      | Some tree =>
          let userkey := findtext tree expr in
          userkey <- lift (decode_base64 h userkey) ;;
          ret (slice userkey (Some 26) None)
      end
  end.

End Mac.

(* ================================================================== *)
(** * The credential tree, as the walk reads it *)
(* ================================================================== *)

Module Tree.
Import Py Effects Windows.

(** The child a container shows under a four-digit index. *)
Definition subkey (k : RegKey) (i : nat) : option RegKey :=
  assoc (fmt04d i) (subkeys k).

(** The type tag of a node is its default value; a leaf's payload is its
    value named [value]. *)
Definition type_tag (k : RegKey) : option str := assoc EmptyString (values k).
Definition named_value (k : RegKey) : option str :=
  assoc "value"%string (values k).

Definition tagged (k : RegKey) (t : string) : bool :=
  match type_tag k with
  | Some t' => str_eqb t' (b t)
  | None => false
  end.

(** How many children an enumeration from "0000" reaches before the first
    index that cannot be opened, sixteen at most. *)
Fixpoint openable_prefix (k : RegKey) (rest : list nat) : nat :=
  match rest with
  | [] => O
  | i :: rest' =>
      match subkey k i with
      | Some _ => S (openable_prefix k rest')
      | None => O
      end
  end.

Definition enumerated (k : RegKey) : nat := openable_prefix k (seq 0 16).

(** Child [j] of [nd] can be opened, carries a tag, and the tag is not
    [privateLicenseKey]. *)
Definition other_leaf (nd : RegKey) (j : nat) : bool :=
  match subkey nd j with
  | Some lf =>
      match type_tag lf with
      | Some t => negb (str_eqb t (b "privateLicenseKey"))
      | None => false
      end
  | None => false
  end.

(** Child [j] of [nd] is the first licence-key leaf of [nd], with
    payload [v]. *)
Definition licence_key_at (nd : RegKey) (j : nat) (v : str) : bool :=
  (j <? 16)%nat && forallb (other_leaf nd) (seq 0 j) &&
  match subkey nd j with
  | Some lf => tagged lf "privateLicenseKey" &&
               match named_value lf with
               | Some v' => str_eqb v' v
               | None => false
               end
  | None => false
  end.

(** None of the enumerated children of [nd] is a licence-key leaf. *)
Definition no_licence_key (nd : RegKey) : bool :=
  forallb (other_leaf nd) (seq 0 (enumerated nd)).

(** Child [i] of [root] can be opened and carries a tag, and is either
    not a credentials node or one without a licence-key leaf. *)
Definition passed_over (root : RegKey) (i : nat) : bool :=
  match subkey root i with
  | Some nd =>
      match type_tag nd with
      | Some t => if str_eqb t (b "credentials") then no_licence_key nd
                  else true
      | None => false
      end
  | None => false
  end.

(** The leaf at depth-1 index [i], depth-2 index [j] is the first
    licence-key leaf in index order, and its payload is [v]. *)
Definition first_licence_key (root : RegKey) (i j : nat) (v : str) : bool :=
  (i <? 16)%nat && forallb (passed_over root) (seq 0 i) &&
  match subkey root i with
  | Some nd => tagged nd "credentials" && licence_key_at nd j v
  | None => false
  end.

(** The enumeration of [root] reaches no licence-key leaf at all. *)
Definition no_first_licence_key (root : RegKey) : bool :=
  forallb (passed_over root) (seq 0 (enumerated root)).

(** The names tried under child [i] of [root] by a walk that goes through
    all of [root] without finding a licence key: under a credentials node
    the names from "0000" up to and including the first that cannot be
    opened, sixteen at most; nothing under a node of another type, and
    nothing under a child that the enumeration of [root] does not reach. *)
Definition tried_under (root : RegKey) (i : nat) : list string :=
  if (i <? enumerated root)%nat then
    match subkey root i with
    | Some nd =>
        if tagged nd "credentials"
        then map fmt04d (seq 0 (Nat.min 16 (S (enumerated nd))))
        else []
    | None => []
    end
  else [].

(** The [sub_key] arguments of the [OpenKey] calls made on one parent, in
    the order of the calls. *)
Definition opens_of (parent : list string) (tr : list event) : list string :=
  flat_map (fun e =>
              match e with
              | RegOpenKey p sub =>
                  if list_eq_dec string_dec p parent then [sub] else []
              | _ => []
              end) tr.

(** The keys from [HKEY_CURRENT_USER] down to the activation key and to
    the device key: [PRIVATE_LICENCE_KEY_PATH] and [DEVICE_KEY_PATH] cut at
    the backslashes. *)
Definition activation_path : list string :=
  ["Software"; "Adobe"; "Adept"; "Activation"]%string.
Definition device_path : list string :=
  ["Software"; "Adobe"; "Adept"; "Device"]%string.

(** The handle of the activation key once it is open. *)
Definition activation_handle (root : RegKey) : HKEY :=
  {| hpath := activation_path; hnode := root |}.

(** Lines 236-237 applied to the outcome of the walk: a walk that ends
    with [userkey] still [None] becomes a failure. *)
Definition insist (m : M (option str)) : M str :=
  match m with
  | (tr, Ok (Some v)) => (tr, Ok v)
  | (tr, Ok None) =>
      (tr, Raise (ADEPTError "Could not locate privateLicenseKey"))
  | (tr, Raise e) => (tr, Raise e)
  end.

(** The two calls made for every child that can be opened: open it, read
    its type tag. *)
Definition leaf_events (P : HKEY) (j : nat) : list event :=
  [RegOpenKey (hpath P) (fmt04d j);
   RegQueryValueEx (hpath P ++ [fmt04d j]) None].

(** The read of a leaf's payload. *)
Definition value_event (P : HKEY) (j : nat) : event :=
  RegQueryValueEx (hpath P ++ [fmt04d j]) (Some "value"%string).

(** The log ends with the given call. *)
Definition ends_with (tr : list event) (e : event) : Prop :=
  exists tr', tr = tr' ++ [e].

(** The log opens nothing outside the children of [P]. *)
Definition confined (P : HKEY) (tr : list event) : Prop :=
  forall q, q <> hpath P -> opens_of q tr = [].

End Tree.

(* ================================================================== *)
(** * Doubles for the libraries and a few concrete hosts *)
(* ================================================================== *)

Module Doubles.
Import Py Effects.

(** The ['base64'] codec of Python 2: [binascii.a2b_base64]. Characters
    outside the alphabet are skipped; a pad character ends the input once
    two characters of a group of four have been read (right after the
    second one only when the next alphabet or pad character is a pad as
    well) and is skipped otherwise; bits left over at the end of the input
    are an error ("Incorrect padding"). *)
Definition table_a2b_base64 (c : ascii) : option Z :=
  let n := ord c in
  if (65 <=? n) && (n <=? 90) then Some (n - 65)
  else if (97 <=? n) && (n <=? 122) then Some (n - 71)
  else if (48 <=? n) && (n <=? 57) then Some (n + 4)
  else if n =? 43 then Some 62
  else if n =? 47 then Some 63
  else if n =? 61 then Some 0
  else None.

(** [binascii_find_valid]: the character after [num] alphabet or pad
    characters. *)
Fixpoint find_valid (s : str) (num : nat) : option ascii :=
  match s with
  | [] => None
  | c :: r =>
      match table_a2b_base64 c with
      | Some _ => match num with
                  | O => Some c
                  | S n => find_valid r n
                  end
      | None => find_valid r num
      end
  end.

Definition is_pad (c : option ascii) : bool :=
  match c with
  | Some c => ord c =? 61
  | None => false
  end.

Fixpoint a2b_base64_from (s : str) (quad_pos leftchar leftbits : Z)
    : option str :=
  match s with
  | [] => if leftbits =? 0 then Some [] else None
  | c :: r =>
      let n := ord c in
      if (127 <? n) || (n =? 13) || (n =? 10) || (n =? 32) then
        a2b_base64_from r quad_pos leftchar leftbits
      else if n =? 61 then
        if (quad_pos <? 2)
           || ((quad_pos =? 2) && negb (is_pad (find_valid s 1)))
        then a2b_base64_from r quad_pos leftchar leftbits
        else Some []
      else
        match table_a2b_base64 c with
        | None => a2b_base64_from r quad_pos leftchar leftbits
        | Some v =>
            let quad_pos := Z.land (quad_pos + 1) 3 in
            let leftchar := Z.lor (Z.shiftl leftchar 6) v in
            let leftbits := leftbits + 6 in
            if 8 <=? leftbits then
              let leftbits := leftbits - 8 in
              match a2b_base64_from r quad_pos
                      (Z.land leftchar (Z.shiftl 1 leftbits - 1)) leftbits
              with
              | Some out =>
                  Some (chr (Z.land (Z.shiftr leftchar leftbits) 255) :: out)
              | None => None
              end
            else a2b_base64_from r quad_pos leftchar leftbits
        end
  end.

Definition base64 (s : str) : option str := a2b_base64_from s 0 0 0.

(** A block "cipher" that leaves the block alone: with the zero IV the
    first plaintext block is then the first ciphertext block. *)
Definition plain_blocks : Windows.AES :=
  {| Windows.decrypt_block := fun _ blk => blk |}.

(** A processor that answers selector 0 with "GenuineIntel" and selector 1
    with the signature 0x000306A9. *)
Definition intel_cpuid (selector : Z) : Z * Z * Z * Z :=
  if selector =? 0 then (13, 0x756E6547, 0x6C65746E, 0x49656E69)
  else (0x000306A9, 0x00100800, 0x7FBAE3FF, 0xBFEBFBFF).

(** A Windows host around a given registry. *)
Definition windows_host (aes : option Windows.AES) (hkcu : Windows.RegKey)
    : Windows.Host :=
  {| Windows._aes := aes;
     Windows.SystemDirectory := "C:\Windows\system32";
     Windows.VolumeSerialNumber := fun _ => 0x1234ABCD;
     Windows.cpuid := intel_cpuid;
     Windows.UserName := map ord (b "reader");
     Windows.HKEY_CURRENT_USER := hkcu;
     Windows.crypt32_CryptUnprotectData :=
       fun indata _ => Some (firstn 16 indata);
     Windows.base64_decode := base64 |}.

Definition empty_registry : Windows.RegKey := Windows.Key [] [].

(** A 16-byte key-encryption key, and a wrapped value: the base64 text of
    thirty-two bytes "A". Under [plain_blocks] and the zero IV it decrypts
    to sixteen "A" followed by sixteen NUL bytes. *)
Definition sample_keykey : str := b "0123456789abcdef".
Definition wrapped_32A : str :=
  b "QUFBQUFBQUFBQUFBQUFBQUFBQUFBQUFBQUFBQUFBQUE=".

(** The base64 text of thirty-one bytes "A" and one byte "B": the second
    plaintext block is then fifteen NUL bytes and one byte 0x03. *)
Definition wrapped_31A_B : str :=
  b "QUFBQUFBQUFBQUFBQUFBQUFBQUFBQUFBQUFBQUFBQUI=".

(** Registry keys the way the DRM client lays them out: a node with a
    type tag, a leaf with a tag and a payload, and children named by
    their position. *)
Definition node (tag : string) (children : list Windows.RegKey)
    : Windows.RegKey :=
  Windows.Key [(EmptyString, b tag)]
    (combine (map fmt04d (seq 0 (List.length children))) children).

Definition leaf (tag : string) (value : str) : Windows.RegKey :=
  Windows.Key [(EmptyString, b tag); ("value"%string, value)] [].

(** [HKEY_CURRENT_USER] with a device key and an activation key. *)
Definition hkcu (device : str) (activation : Windows.RegKey)
    : Windows.RegKey :=
  Windows.Key []
    [("Software"%string, Windows.Key []
       [("Adobe"%string, Windows.Key []
          [("Adept"%string, Windows.Key []
             [("Device"%string, Windows.Key [("key"%string, device)] []);
              ("Activation"%string, activation)])])])].

(** An activation whose only credentials node is child "0003", with the
    licence key as its child "0007". *)
Definition credentials_0003 : Windows.RegKey :=
  node "credentials"
    [leaf "user" (b "urn:uuid:0");
     leaf "username" (b "reader");
     leaf "pkcs12" (b "MIIB");
     leaf "encryptedPrivateLicenseKey" (b "AAAA");
     leaf "licenseCertificate" (b "MIIC");
     leaf "authenticationCertificate" (b "MIID");
     leaf "operatorURL" (b "http://example.invalid");
     leaf "privateLicenseKey" wrapped_31A_B].

Definition activation_0003_0007 : Windows.RegKey :=
  node "activation"
    [node "fulfillment" []; node "device" []; node "activationToken" [];
     credentials_0003].

(** An activation whose first credentials node holds no licence key and
    whose second one holds it as child "0001". *)
Definition activation_barren_first : Windows.RegKey :=
  node "activation"
    [node "credentials" [leaf "user" (b "urn:uuid:0")];
     node "device" [];
     node "credentials"
       [leaf "username" (b "reader");
        leaf "privateLicenseKey" wrapped_32A]].

(** Activation records as the other platform stores them. *)
Definition licence_key_element (t : str) : Mac.Element :=
  Mac.Elem (Mac.adept "privateLicenseKey") (Some t) [].

Definition credentials_element (cs : list Mac.Element) : Mac.Element :=
  Mac.Elem (Mac.adept "credentials") None cs.

Definition activation_record (cs : list Mac.Element) : Mac.Element :=
  Mac.Elem (Mac.adept "activationInfo") None cs.

Definition record_with_key : Mac.Element :=
  activation_record
    [Mac.Elem (Mac.adept "activationServiceInfo") None [];
     credentials_element
       [Mac.Elem (Mac.adept "user") (Some (b "urn:uuid:0")) [];
        licence_key_element wrapped_32A]].

Definition record_without_key : Mac.Element :=
  activation_record
    [credentials_element
       [Mac.Elem (Mac.adept "user") (Some (b "urn:uuid:0")) []]].

(** The fragment of the description taken as the whole document: the
    credentials element is the root. *)
Definition record_rooted_at_credentials : Mac.Element :=
  credentials_element [licence_key_element wrapped_32A].

Definition support_folder : string :=
  "/Users/reader/Library/Application Support".

(** A host whose user-domain support folder holds the given record. *)
Definition mac_host (record : Mac.Element) : Mac.Host :=
  {| Mac.FSFindFolder :=
       fun domain => if domain =? Mac.kUserDomain then Some support_folder
                     else None;
     Mac.isfile :=
       fun path => String.eqb path (path_join support_folder
                                      Mac.ACTIVATION_PATH);
     Mac.parse := fun _ => Some record;
     Mac.base64_decode := base64 |}.

(** [HKEY_CURRENT_USER] whose device key exists but holds no value named
    [key]. *)
Definition hkcu_device_without_value (activation : Windows.RegKey)
    : Windows.RegKey :=
  Windows.Key []
    [("Software"%string, Windows.Key []
       [("Adobe"%string, Windows.Key []
          [("Adept"%string, Windows.Key []
             [("Device"%string, Windows.Key [] []);
              ("Activation"%string, activation)])])])].


(** An activation key without children. *)
Definition activation_empty : Windows.RegKey := Windows.Key [] [].

(** A Windows host with a given user name and nothing in the registry. *)
Definition windows_host_named (name : list Z) : Windows.Host :=
  {| Windows._aes := None;
     Windows.SystemDirectory := "C:\Windows\system32";
     Windows.VolumeSerialNumber := fun _ => 0x1234ABCD;
     Windows.cpuid := intel_cpuid;
     Windows.UserName := name;
     Windows.HKEY_CURRENT_USER := empty_registry;
     Windows.crypt32_CryptUnprotectData := fun _ _ => None;
     Windows.base64_decode := base64 |}.

(** A Windows host whose secret-protection service refuses every blob. *)
Definition windows_host_sealed (hkcu : Windows.RegKey) : Windows.Host :=
  {| Windows._aes := Some plain_blocks;
     Windows.SystemDirectory := "C:\Windows\system32";
     Windows.VolumeSerialNumber := fun _ => 0x1234ABCD;
     Windows.cpuid := intel_cpuid;
     Windows.UserName := map ord (b "reader");
     Windows.HKEY_CURRENT_USER := hkcu;
     Windows.crypt32_CryptUnprotectData := fun _ _ => None;
     Windows.base64_decode := base64 |}.

(** A host with both support folders and no activation file in either. *)
Definition mac_host_without_file : Mac.Host :=
  {| Mac.FSFindFolder :=
       fun domain => if domain =? Mac.kUserDomain then Some support_folder
                     else Some "/Library/Application Support"%string;
     Mac.isfile := fun _ => false;
     Mac.parse := fun _ => None;
     Mac.base64_decode := base64 |}.


Definition record_with_short_key : Mac.Element :=
  activation_record [credentials_element [licence_key_element (b "QUFB")]].

(** An activation whose only credentials node, child "0001", holds two
    leaves and no licence key. *)
Definition activation_barren_only : Windows.RegKey :=
  node "activation"
    [node "device" [];
     node "credentials"
       [leaf "user" (b "urn:uuid:0"); leaf "username" (b "reader")];
     node "activationToken" []].

(** An activation key whose first child carries no type tag. *)
Definition activation_untagged_first : Windows.RegKey :=
  Windows.Key [(EmptyString, b "activation")]
    [("0000"%string, Windows.Key [] []);
     ("0001"%string,
      node "credentials" [leaf "privateLicenseKey" wrapped_32A])].

End Doubles.

(* ================================================================== *)
(** * Vocabulary of the description *)
(* ================================================================== *)

Module Described.
Import Py Effects.

(** "drop the final N bytes" *)
Definition drop_last (A : Type) (n : nat) (l : list A) : list A :=
  firstn (List.length l - n) l.

(** The value of four bytes read as a big-endian unsigned integer. *)
Definition be_value (s : str) : Z :=
  fold_left (fun acc c => acc * 256 + ord c) s 0.

(** "the top 3 significant bytes" of a 32-bit value, most significant
    first. *)
Definition top_three_bytes (z : Z) : str :=
  [chr (Z.shiftr z 24); chr (Z.shiftr z 16); chr (Z.shiftr z 8)].

(** The three low-order bytes of a 32-bit value, most significant first. *)
Definition low_three_bytes (z : Z) : str :=
  [chr (Z.shiftr z 16); chr (Z.shiftr z 8); chr z].

(** What the Windows host contributes to the entropy. *)
Definition system_root (h : Windows.Host) : string :=
  String.append
    (hd EmptyString (split Windows.backslash (Windows.SystemDirectory h)))
    (String Windows.backslash EmptyString).

Definition volume_serial (h : Windows.Host) : Z :=
  Windows.c_uint (Windows.VolumeSerialNumber h (system_root h)).

Definition vendor_signature (h : Windows.Host) : str :=
  match Windows.cpuid h 0 with
  | (_, ebx, ecx, edx) =>
      Windows.le32 ebx ++ Windows.le32 edx ++ Windows.le32 ecx
  end.

Definition feature_value (h : Windows.Host) : Z :=
  match Windows.cpuid h 1 with
  | (eax, _, _, _) => Windows.c_uint eax
  end.

(** One byte per character of the user name: the low byte of each UTF-16
    code unit. *)
Definition user_name (h : Windows.Host) : str :=
  map chr (Windows.UserName h).

(** The calls made while the entropy is gathered, in order. *)
Definition entropy_calls (h : Windows.Host) : list event :=
  [CallGetSystemDirectoryW; CallGetVolumeInformationW (system_root h);
   ExecCpuid 0; ExecCpuid 1]
  ++ map CallGetUserNameW
       (Windows.GetUserName_sizes (List.length (Windows.UserName h))
                                  (S (List.length (Windows.UserName h))) 32).

(** [e] lies somewhere below [root] in the document. *)
Inductive below (root : Mac.Element) : Mac.Element -> Prop :=
| below_child (e : Mac.Element) :
    In e (Mac.children root) -> below root e
| below_deeper (c e : Mac.Element) :
    In c (Mac.children root) -> below c e -> below root e.

(** [e] is at the element path [credentials/privateLicenseKey] (adept
    namespace) of the document with root element [root]: a licence-key
    child of a credentials element below the root. *)
Definition at_licence_key_path (root e : Mac.Element) : Prop :=
  exists c, below root c
            /\ Mac.tag c = Mac.adept "credentials"
            /\ In e (Mac.children c)
            /\ Mac.tag e = Mac.adept "privateLicenseKey".

(** The text content of an element; an element without text has the
    empty text. *)
Definition element_text (e : Mac.Element) : str :=
  match Mac.text e with
  | Some t => t
  | None => []
  end.

(** A failure of the one family the module defines. *)
Definition is_ADEPTError (A : Type) (r : res A) : Prop :=
  exists msg, r = Raise (ADEPTError msg).

(** Case analysis on an index known to be below sixteen. *)
Ltac below16 i :=
  do 16 (destruct i as [|i]; [try reflexivity|]); try lia.

End Described.

(* ================================================================== *)
(** * Vocabulary for the rest of the module *)
(* ================================================================== *)

Module Observed.
Import Py Effects Described Tree.

(** The value of a byte string read as a little-endian unsigned
    integer. *)
Definition le_value (s : str) : Z :=
  fold_right (fun c acc => ord c + 256 * acc) 0 s.

(** The entropy as lines 198-203 compute it. *)
Definition entropy_buffer (h : Windows.Host) : str :=
  pack_I_be (volume_serial h) ++ pack_s 12 (vendor_signature h)
  ++ pack_s 3 (low_three_bytes (feature_value h))
  ++ pack_s 13 (user_name h).

(** The sizes [32 * 2^k] for [k = 0 .. n]. *)
Definition doubled_sizes (n : nat) : list nat :=
  map (fun k => (32 * 2 ^ k)%nat) (seq 0 (S n)).

(** A string without a backslash. *)
Definition backslash_free (s : string) : bool :=
  forallb (fun c => negb (Ascii.eqb c Windows.backslash))
          (list_ascii_of_string s).

(** Calls that read the registry. *)
Definition registry_event (e : event) : bool :=
  match e with
  | RegOpenKey _ _ | RegQueryValueEx _ _ => true
  | _ => false
  end.

(** The calls made on the device key when it exists. *)
Definition device_events : list event :=
  [RegOpenKey [] Windows.DEVICE_KEY_PATH;
   RegQueryValueEx device_path (Some "key"%string)].

(** Child [j] of [nd] can be opened but makes a read fail: it has no
    type tag, or it is tagged [privateLicenseKey] and has no value named
    [value]. *)
Definition broken_leaf (nd : Windows.RegKey) (j : nat) : bool :=
  match subkey nd j with
  | Some lf =>
      match type_tag lf with
      | None => true
      | Some t =>
          str_eqb t (b "privateLicenseKey") &&
          match named_value lf with
          | None => true
          | Some _ => false
          end
      end
  | None => false
  end.

(** The enumeration of the children of [nd] reaches a broken child before
    any licence key. *)
Definition breaks_under (nd : Windows.RegKey) (j : nat) : bool :=
  (j <? 16)%nat && forallb (other_leaf nd) (seq 0 j) && broken_leaf nd j.

(** The walk reaches, at depth-1 index [i] and before any licence key, a
    node without a type tag or a credentials node under which the
    enumeration breaks. *)
Definition breaks_at (root : Windows.RegKey) (i : nat) : bool :=
  (i <? 16)%nat && forallb (passed_over root) (seq 0 i) &&
  match subkey root i with
  | Some nd =>
      match type_tag nd with
      | None => true
      | Some t => str_eqb t (b "credentials")
                  && existsb (breaks_under nd) (seq 0 16)
      end
  | None => false
  end.



(** The file a domain offers: the support folder joined with the
    subpath, when the folder is found and the file exists. *)
Definition offered (h : Mac.Host) (subpath : string) (domain : Z)
    : option string :=
  match Mac.FSFindFolder h domain with
  | Some folder =>
      if Mac.isfile h (path_join folder subpath)
      then Some (path_join folder subpath) else None
  | None => None
  end.

End Observed.

(* ================================================================== *)
(** * Facts about the Python primitives *)
(* ================================================================== *)

Module PyFacts.
Import Py Effects Described.

Lemma str_eqb_refl (x : str) : str_eqb x x = true.
Proof.
  induction x as [|c x IH]; [reflexivity|].
  cbn [str_eqb]. now rewrite Ascii.eqb_refl, IH.
Qed.

Lemma str_eqb_eq (x y : str) : str_eqb x y = true <-> x = y.
Proof.
  split.
  - revert y. induction x as [|c x IH]; intros [|d y] H; cbn in H;
      try discriminate; [reflexivity|].
    apply andb_true_iff in H as [Hc Hx].
    apply Ascii.eqb_eq in Hc. subst d. f_equal. now apply IH.
  - intros <-. apply str_eqb_refl.
Qed.

Lemma getitem_last (A : Type) (front : list A) (x : A) :
  getitem (front ++ [x]) (-1) = Ok x.
Proof.
  unfold getitem. rewrite length_app. cbn [List.length].
  replace (-1 <? 0) with true by reflexivity.
  assert (H : -1 + Z.of_nat (List.length front + 1)
              = Z.of_nat (List.length front)) by lia.
  rewrite H.
  replace (Z.of_nat (List.length front) <? 0) with false
    by (symmetry; apply Z.ltb_ge; lia).
  replace (Z.of_nat (List.length front + 1) <=? Z.of_nat (List.length front))
    with false by (symmetry; apply Z.leb_gt; lia).
  cbn [orb]. rewrite Nat2Z.id.
  rewrite nth_error_app2 by lia. rewrite Nat.sub_diag. reflexivity.
Qed.

Lemma getitem_empty (A : Type) (i : Z) :
  getitem (@nil A) i = Raise IndexError.
Proof.
  unfold getitem. cbn [List.length]. change (Z.of_nat 0) with 0.
  destruct (i <? 0) eqn:E.
  - replace (i + 0 <? 0) with true; [reflexivity|].
    symmetry. apply Z.ltb_lt. apply Z.ltb_lt in E. lia.
  - replace (0 <=? i) with true; [now rewrite orb_true_r|].
    symmetry. apply Z.leb_le. apply Z.ltb_ge in E. lia.
Qed.

Lemma slice_from (A : Type) (s : list A) (k : nat) :
  slice s (Some (Z.of_nat k)) None = skipn k s.
Proof.
  unfold slice, adjust.
  replace (Z.of_nat k <? 0) with false by (symmetry; apply Z.ltb_ge; lia).
  destruct (Z.min_spec (Z.of_nat k) (Z.of_nat (List.length s)))
    as [[Hlt ->]|[Hge ->]].
  - rewrite Nat2Z.id. apply firstn_all2. rewrite length_skipn. lia.
  - rewrite Nat2Z.id. rewrite Z.sub_diag. cbn. symmetry.
    apply skipn_all2. lia.
Qed.

(** With a pad length of at least one, the slice is the header-stripped
    buffer without its last [n] bytes. *)
Lemma slice_26_neg (A : Type) (s : list A) (n : Z) :
  1 <= n ->
  slice s (Some 26) (Some (- n)) = drop_last (Z.to_nat n) (skipn 26 s).
Proof.
  intros Hn. unfold slice, adjust, drop_last.
  replace (26 <? 0) with false by reflexivity.
  replace (- n <? 0) with true by (symmetry; apply Z.ltb_lt; lia).
  rewrite length_skipn.
  destruct (Z.min_spec 26 (Z.of_nat (List.length s))) as [[Hlt ->]|[Hge ->]].
  - change (Z.to_nat 26) with 26%nat. f_equal. lia.
  - rewrite Nat2Z.id. rewrite !skipn_all2 by lia. now rewrite !firstn_nil.
Qed.

(** [-0] is [0]: the stop bound is then the start of the string. *)
Lemma slice_26_neg0 (A : Type) (s : list A) :
  slice s (Some 26) (Some (- 0)) = [].
Proof.
  unfold slice, adjust. cbn [Z.opp].
  replace (26 <? 0) with false by reflexivity.
  replace (0 <? 0) with false by reflexivity.
  rewrite Z.min_l by lia.
  replace (Z.to_nat (0 - Z.min 26 (Z.of_nat (List.length s)))) with 0%nat
    by lia.
  reflexivity.
Qed.

(** A slice that cuts a string at the ends of a known middle part. *)
Lemma slice_middle (A : Type) (x m y : list A) (lo hi : Z) :
  lo = Z.of_nat (List.length x) ->
  hi = Z.of_nat (List.length x + List.length m) ->
  slice (x ++ m ++ y) (Some lo) (Some hi) = m.
Proof.
  intros -> ->. unfold slice, adjust. rewrite !length_app.
  replace (Z.of_nat (List.length x) <? 0) with false
    by (symmetry; apply Z.ltb_ge; lia).
  replace (Z.of_nat (List.length x + List.length m) <? 0) with false
    by (symmetry; apply Z.ltb_ge; lia).
  rewrite !Z.min_l by lia.
  rewrite Nat2Z.id.
  replace (Z.to_nat (Z.of_nat (List.length x + List.length m)
                     - Z.of_nat (List.length x)))
    with (List.length m) by lia.
  rewrite skipn_app, skipn_all, Nat.sub_diag. cbn [app skipn].
  rewrite firstn_app, firstn_all, Nat.sub_diag. cbn [firstn].
  apply app_nil_r.
Qed.

Lemma ord_chr (z : Z) : ord (chr z) = z mod 256.
Proof.
  unfold ord, chr. rewrite N_ascii_embedding.
  - rewrite Z2N.id; [reflexivity|]. apply Z.mod_pos_bound. lia.
  - pose proof (Z.mod_pos_bound z 256 ltac:(lia)). lia.
Qed.

Lemma ord_range (c : ascii) : 0 <= ord c < 256.
Proof.
  unfold ord. pose proof (N_ascii_bounded c). lia.
Qed.

Lemma stride2_utf16le (u : list Z) : stride2 (encode_utf16le u) = map chr u.
Proof.
  induction u as [|c u IH]; [reflexivity|].
  cbn [encode_utf16le flat_map app stride2 map]. f_equal. exact IH.
Qed.

Lemma length_pack_s (n : nat) (s : str) : List.length (pack_s n s) = n.
Proof.
  unfold pack_s. rewrite length_app, length_firstn, repeat_length. lia.
Qed.

Lemma pack_s_exact (n : nat) (s : str) :
  List.length s = n -> pack_s n s = s.
Proof.
  intros <-. unfold pack_s. rewrite firstn_all, Nat.sub_diag.
  apply app_nil_r.
Qed.

Lemma pack_I_be_tail (z : Z) :
  slice (pack_I_be z) (Some 1) None = low_three_bytes z.
Proof. reflexivity. Qed.

Lemma be_value_pack_I_be (z : Z) :
  0 <= z < 2 ^ 32 -> be_value (pack_I_be z) = z.
Proof.
  intros Hz. unfold be_value, pack_I_be. cbn [fold_left].
  rewrite !ord_chr, !Z.shiftr_div_pow2 by lia.
  change (2 ^ 24) with 16777216. change (2 ^ 16) with 65536.
  change (2 ^ 8) with 256. change (2 ^ 32) with 4294967296 in Hz.
  rewrite (Z.mod_small (z / 16777216))
    by (split; [apply Z.div_pos; lia | apply Z.div_lt_upper_bound; lia]).
  pose proof (Z.div_mod z 256 ltac:(lia)).
  pose proof (Z.div_mod (z / 256) 256 ltac:(lia)).
  pose proof (Z.div_mod (z / 256 / 256) 256 ltac:(lia)).
  rewrite Z.div_div in * by lia.
  change (256 * 256) with 65536 in *.
  rewrite Z.div_div in * by lia.
  change (65536 * 256) with 16777216 in *. lia.
Qed.

Lemma be_value_low_three_bytes (z : Z) :
  0 <= z -> be_value (low_three_bytes z) = z mod 2 ^ 24.
Proof.
  intros Hz. unfold be_value, low_three_bytes. cbn [fold_left].
  rewrite !ord_chr, !Z.shiftr_div_pow2 by lia.
  change (2 ^ 24) with 16777216. change (2 ^ 16) with 65536.
  change (2 ^ 8) with 256.
  pose proof (Z.div_mod z 256 ltac:(lia)).
  pose proof (Z.div_mod (z / 256) 256 ltac:(lia)).
  pose proof (Z.div_mod (z / 256 / 256) 256 ltac:(lia)).
  pose proof (Z.div_mod z 16777216 ltac:(lia)).
  pose proof (Z.mod_pos_bound z 256 ltac:(lia)).
  pose proof (Z.mod_pos_bound (z / 256) 256 ltac:(lia)).
  pose proof (Z.mod_pos_bound (z / 65536) 256 ltac:(lia)).
  pose proof (Z.mod_pos_bound z 16777216 ltac:(lia)).
  rewrite Z.div_div in * by lia.
  change (256 * 256) with 65536 in *.
  rewrite Z.div_div in * by lia.
  change (65536 * 256) with 16777216 in *. lia.
Qed.

End PyFacts.

(* ================================================================== *)
(** * Key unwrap and padding removal (lines 238-241) *)
(* ================================================================== *)

Module UnwrapFacts.
Import Py Effects Windows Described PyFacts.

Lemma depad_last (front : str) (last : ascii) :
  depad (front ++ [last])
  = Ok (slice (front ++ [last]) (Some 26) (Some (- ord last))).
Proof. unfold depad. now rewrite getitem_last. Qed.

Lemma depad_empty : depad [] = Raise IndexError.
Proof. unfold depad. now rewrite getitem_empty. Qed.

(** The three steps of the block, once the codec and the cipher accept
    their inputs. *)
Lemma retrieve_key_unwrap_steps (h : Host) (aes : AES)
    (keykey userkey data : str) :
  base64_decode h userkey = Some data ->
  valid_key_length (List.length keykey) = true ->
  Nat.modulo (List.length data) block_size = 0%nat ->
  retrieve_key_unwrap h aes keykey userkey
  = ([CallAesDecrypt], depad (cbc_decrypt aes keykey default_IV data)).
Proof.
  intros Hdec Hkey Hlen.
  unfold retrieve_key_unwrap, decode_base64, new_CBC_decrypt.
  rewrite Hdec. unfold lift, bind, tell, ret.
  rewrite Hkey, Hlen. cbn [Nat.eqb app].
  destruct (depad _); reflexivity.
Qed.

(** C1, as amended: a wrapped value that the codec and the cipher accept
    is base64-decoded and CBC-decrypted under the key with the all-zero
    IV, in one call of the cipher. From a plaintext whose last byte N is at
    least 1 the result is the plaintext without its first 26 bytes and
    without the final N bytes of what is left; from a plaintext whose last
    byte is 0 the result is empty; an empty plaintext ends in
    [IndexError]. A last byte 0x01 on a plaintext longer than 26 bytes
    gives a result one byte shorter than the header-stripped plaintext,
    and a last byte 0x10 removes the final 16-byte block of the
    plaintext. *)
Theorem retrieve_key_unwrap_depads (h : Host) (aes : AES)
    (keykey userkey data : str) :
  base64_decode h userkey = Some data ->
  valid_key_length (List.length keykey) = true ->
  Nat.modulo (List.length data) block_size = 0%nat ->
  let plain := cbc_decrypt aes keykey default_IV data in
  let m := retrieve_key_unwrap h aes keykey userkey in
  trace m = [CallAesDecrypt]
  /\ (plain = [] -> outcome m = Raise IndexError)
  /\ (forall front last, plain = front ++ [last] ->
        (ord last = 0 -> outcome m = Ok [])
        /\ (1 <= ord last ->
            outcome m
            = Ok (drop_last (Z.to_nat (ord last)) (skipn 26 plain)))
        /\ (ord last = 1 -> (26 < List.length plain)%nat ->
            exists result,
              outcome m = Ok result
              /\ S (List.length result) = List.length (skipn 26 plain))
        /\ (ord last = 16 ->
            outcome m = Ok (skipn 26 (drop_last 16 plain)))).
Proof.
  intros Hdec Hkey Hlen plain m. subst m.
  rewrite (retrieve_key_unwrap_steps h aes _ _ Hdec Hkey Hlen).
  fold plain. unfold trace, outcome. cbn [fst snd].
  split; [reflexivity|]. split.
  - intros ->. apply depad_empty.
  - intros front last Hplain.
    assert (Hpos : 1 <= ord last ->
              depad plain
              = Ok (drop_last (Z.to_nat (ord last)) (skipn 26 plain))).
    { intros Hpad. rewrite Hplain, depad_last. now rewrite slice_26_neg. }
    split; [|split; [exact Hpos|split]].
    + intros H0. rewrite Hplain, depad_last, H0. now rewrite slice_26_neg0.
    + intros H1 Hlong. eexists. split; [apply Hpos; lia|].
      unfold drop_last. rewrite H1. change (Z.to_nat 1) with 1%nat.
      rewrite length_firstn, !length_skipn. lia.
    + intros H16. rewrite Hpos by lia. f_equal. unfold drop_last.
      rewrite H16. change (Z.to_nat 16) with 16%nat.
      rewrite skipn_firstn_comm, length_skipn. f_equal. lia.
Qed.

Lemma retrieve_key_unwrap_depads_witness :
  outcome (retrieve_key_unwrap
             (Doubles.windows_host None Doubles.empty_registry)
             Doubles.plain_blocks Doubles.sample_keykey Doubles.wrapped_31A_B)
  = Ok (repeat zero 3).
Proof.
  refine (proj1 (proj2 (proj2 (proj2 (@retrieve_key_unwrap_depads
            (Doubles.windows_host None Doubles.empty_registry)
            Doubles.plain_blocks Doubles.sample_keykey Doubles.wrapped_31A_B
            (repeat "A"%char 31 ++ ["B"%char]) _ _ _))
            (repeat "A"%char 16 ++ repeat zero 15) (chr 3) _)) _).
  - vm_compute. reflexivity.
  - reflexivity.
  - reflexivity.
  - vm_compute. reflexivity.
  - vm_compute. discriminate.
Defined.

(** The description's rule applied with N = 0 would leave the
    header-stripped plaintext as it is; the code returns the empty
    string. *)
Lemma retrieve_key_unwrap_pad0_counterexample :
  let h := Doubles.windows_host None Doubles.empty_registry in
  let plain := repeat "A"%char 16 ++ repeat zero 16 in
  base64_decode h Doubles.wrapped_32A = Some (repeat "A"%char 32)
  /\ cbc_decrypt Doubles.plain_blocks Doubles.sample_keykey default_IV
       (repeat "A"%char 32) = plain
  /\ getitem plain (-1) = Ok zero
  /\ outcome (retrieve_key_unwrap h Doubles.plain_blocks
                Doubles.sample_keykey Doubles.wrapped_32A)
     <> Ok (drop_last (Z.to_nat (ord zero)) (skipn 26 plain)).
Proof.
  vm_compute. repeat split; try reflexivity. discriminate.
Qed.

(** C9: a plaintext whose last byte is 0x00 is turned into the empty
    string, whatever follows its 26-byte header. *)
Theorem retrieve_key_unwrap_zero_pad (h : Host) (aes : AES)
    (keykey userkey data front : str) (last : ascii) :
  base64_decode h userkey = Some data ->
  valid_key_length (List.length keykey) = true ->
  Nat.modulo (List.length data) block_size = 0%nat ->
  cbc_decrypt aes keykey default_IV data = front ++ [last] ->
  ord last = 0 ->
  depad (front ++ [last]) = Ok []
  /\ retrieve_key_unwrap h aes keykey userkey = ([CallAesDecrypt], Ok [])
  /\ ((26 <= List.length front)%nat ->
      drop_last 0 (skipn 26 (front ++ [last])) <> []).
Proof.
  intros Hdec Hkey Hlen Hplain Hpad.
  assert (Hd : depad (front ++ [last]) = Ok []).
  { rewrite depad_last, Hpad. now rewrite slice_26_neg0. }
  split; [exact Hd|]. split.
  - rewrite (retrieve_key_unwrap_steps h aes _ _ Hdec Hkey Hlen), Hplain.
    now rewrite Hd.
  - intros Hlong Hnil. apply (f_equal (@List.length ascii)) in Hnil.
    unfold drop_last in Hnil.
    rewrite length_firstn, !length_skipn, length_app in Hnil.
    cbn [List.length] in Hnil. lia.
Qed.

Lemma retrieve_key_unwrap_zero_pad_witness :
  retrieve_key_unwrap
    (Doubles.windows_host None Doubles.empty_registry) Doubles.plain_blocks
    Doubles.sample_keykey Doubles.wrapped_32A
  = ([CallAesDecrypt], Ok []).
Proof.
  refine (proj1 (proj2 (@retrieve_key_unwrap_zero_pad
            (Doubles.windows_host None Doubles.empty_registry)
            Doubles.plain_blocks Doubles.sample_keykey Doubles.wrapped_32A
            (repeat "A"%char 32)
            (repeat "A"%char 16 ++ repeat zero 15) zero
            _ _ _ _ _))).
  - vm_compute. reflexivity.
  - reflexivity.
  - reflexivity.
  - vm_compute. reflexivity.
  - reflexivity.
Defined.

End UnwrapFacts.

(* ================================================================== *)
(** * The entropy buffer (lines 198-203) *)
(* ================================================================== *)

Module EntropyFacts.
Import Py Effects Windows Described PyFacts.

Lemma c_uint_bounds (z : Z) : 0 <= c_uint z < 2 ^ 32.
Proof. unfold c_uint. apply Z.mod_pos_bound. lia. Qed.

Lemma c_uint_range (z : Z) : (0 <=? c_uint z) && (c_uint z <? 2 ^ 32) = true.
Proof.
  pose proof (c_uint_bounds z) as [H1 H2].
  apply andb_true_iff. split; [apply Z.leb_le | apply Z.ltb_lt]; assumption.
Qed.

Lemma length_vendor_signature (h : Host) :
  List.length (vendor_signature h) = 12%nat.
Proof.
  unfold vendor_signature. destruct (cpuid h 0) as [[[eax ebx] ecx] edx].
  reflexivity.
Qed.

Lemma feature_value_bounds (h : Host) : 0 <= feature_value h < 2 ^ 32.
Proof.
  unfold feature_value. destruct (cpuid h 1) as [[[eax ebx] ecx] edx].
  apply c_uint_bounds.
Qed.

Lemma retrieve_key_entropy_eq (h : Host) :
  retrieve_key_entropy h
  = (entropy_calls h,
     Ok (pack_I_be (volume_serial h) ++ pack_s 12 (vendor_signature h)
         ++ pack_s 3 (low_three_bytes (feature_value h))
         ++ pack_s 13 (user_name h))).
Proof.
  unfold retrieve_key_entropy, GetSystemDirectory, GetVolumeSerialNumber,
    cpuid0, cpuid1, GetUserName, volume_serial, vendor_signature,
    feature_value, user_name, system_root, entropy_calls.
  destruct (cpuid h 0) as [[[a0 b0] c0] d0].
  destruct (cpuid h 1) as [[[a1 b1] c1] d1].
  unfold bind, tell, ret, lift. cbn [fst snd app].
  cbn [struct_pack_be entropy_format].
  rewrite !c_uint_range.
  rewrite !app_nil_r, stride2_utf16le, pack_I_be_tail. reflexivity.
Qed.

(** C3: the entropy is the 32-byte concatenation of the volume serial as
    a 4-byte big-endian unsigned integer, the 12-byte vendor signature,
    the 3-byte feature signature and the user name cut or NUL-padded to
    13 bytes, in that order. *)
Theorem retrieve_key_entropy_layout (h : Host) :
  let serial := pack_I_be (volume_serial h) in
  let vendor := vendor_signature h in
  let signature := low_three_bytes (feature_value h) in
  let user := firstn 13 (user_name h)
              ++ repeat zero (13 - List.length (user_name h)) in
  outcome (retrieve_key_entropy h) = Ok (serial ++ vendor ++ signature ++ user)
  /\ List.length (serial ++ vendor ++ signature ++ user) = 32%nat
  /\ List.length serial = 4%nat
  /\ be_value serial = volume_serial h
  /\ List.length vendor = 12%nat
  /\ List.length signature = 3%nat
  /\ List.length user = 13%nat.
Proof.
  cbv zeta.
  assert (Hu : List.length (firstn 13 (user_name h)
                 ++ repeat zero (13 - List.length (user_name h))) = 13%nat)
    by apply (length_pack_s 13 (user_name h)).
  repeat split.
  - rewrite retrieve_key_entropy_eq. unfold outcome. cbn [snd].
    rewrite (pack_s_exact _ (length_vendor_signature h)).
    rewrite (@pack_s_exact 3 (low_three_bytes (feature_value h)) eq_refl).
    reflexivity.
  - do 3 rewrite length_app. rewrite Hu, length_vendor_signature.
    reflexivity.
  - apply be_value_pack_I_be. unfold volume_serial. apply c_uint_bounds.
  - apply length_vendor_signature.
  - exact Hu.
Qed.

(** Selector 1 answered with eax = 0x000306A9: the signature in the
    buffer is 03 06 A9, while the three most significant bytes of the
    value are 00 03 06. *)
Lemma feature_signature_top_bytes_counterexample :
  let h := Doubles.windows_host None Doubles.empty_registry in
  feature_value h = 0x000306A9
  /\ (exists e, outcome (retrieve_key_entropy h) = Ok e
                /\ slice e (Some 16) (Some 19) = [chr 0x03; chr 0x06; chr 0xA9])
  /\ top_three_bytes (feature_value h) = [chr 0x00; chr 0x03; chr 0x06]
  /\ forall e, outcome (retrieve_key_entropy h) = Ok e ->
               slice e (Some 16) (Some 19) <> top_three_bytes (feature_value h).
Proof.
  cbv zeta. split; [reflexivity|]. split; [|split].
  - eexists. split; [vm_compute; reflexivity|]. vm_compute. reflexivity.
  - reflexivity.
  - intros e He. vm_compute in He. injection He as <-.
    vm_compute. discriminate.
Qed.

(** C4, as amended: the feature signature in the entropy buffer is the
    three low-order bytes of the 4-byte value that the identification
    instruction returns in eax for selector 1: the big-endian packing of
    the value without its first, most significant byte. It sits at
    offsets 16 to 18. *)
Theorem feature_signature_low_bytes (h : Host) :
  let v := feature_value h in
  In (ExecCpuid 1) (trace (retrieve_key_entropy h))
  /\ v = c_uint (fst (fst (fst (cpuid h 1))))
  /\ (exists e, outcome (retrieve_key_entropy h) = Ok e
                /\ slice e (Some 16) (Some 19) = low_three_bytes v)
  /\ low_three_bytes v = slice (pack_I_be v) (Some 1) None
  /\ be_value (low_three_bytes v) = v mod 2 ^ 24.
Proof.
  cbv zeta. repeat split.
  - rewrite retrieve_key_entropy_eq. unfold trace, entropy_calls.
    cbn [fst app In]. auto.
  - unfold feature_value. destruct (cpuid h 1) as [[[eax ebx] ecx] edx].
    reflexivity.
  - eexists. split.
    + rewrite retrieve_key_entropy_eq. reflexivity.
    + rewrite (pack_s_exact _ (length_vendor_signature h)).
      rewrite (@pack_s_exact 3 (low_three_bytes (feature_value h)) eq_refl).
      rewrite app_assoc. apply slice_middle.
      * rewrite length_app, length_vendor_signature. reflexivity.
      * rewrite length_app, length_vendor_signature. reflexivity.
  - apply be_value_low_three_bytes. apply feature_value_bounds.
Qed.

End EntropyFacts.

(* ================================================================== *)
(** * The walk over the credential tree (lines 211-237) *)
(* ================================================================== *)

Module WalkFacts.
Import Py Effects Windows Described PyFacts Tree.
Local Open Scope nat_scope.

Lemma split_fmt04d (i : nat) :
  i < 16 -> split backslash (fmt04d i) = [fmt04d i].
Proof. intros H. below16 i. Qed.

Lemma fmt04d_inj (i j : nat) :
  i < 16 -> j < 16 -> fmt04d i = fmt04d j -> i = j.
Proof.
  intros Hi Hj H.
  do 16 (destruct i as [|i];
         [do 16 (destruct j as [|j]; [try reflexivity; vm_compute in H; discriminate H|]); lia|]).
  lia.
Qed.

Lemma bind_eq (A B : Type) (l : list event) (a : A) (f : A -> M B) :
  bind (l, Ok a) f = prepend l (f a).
Proof. unfold bind, prepend. destruct (f a). reflexivity. Qed.

Lemma OpenKey_index (P : HKEY) (i : nat) :
  i < 16 ->
  OpenKey P (fmt04d i)
  = ([RegOpenKey (hpath P) (fmt04d i)],
     match subkey (hnode P) i with
     | Some k => Ok (child_handle P i k)
     | None => Raise WindowsError
     end).
Proof.
  intros Hi. unfold OpenKey, subkey, child_handle.
  rewrite (split_fmt04d Hi). cbn [open_path].
  destruct (assoc (fmt04d i) (subkeys (hnode P))); reflexivity.
Qed.

Lemma QueryValueEx_default (H : HKEY) :
  QueryValueEx H None
  = ([RegQueryValueEx (hpath H) None],
     match type_tag (hnode H) with
     | Some d => Ok d
     | None => Raise WindowsError
     end).
Proof.
  unfold QueryValueEx, type_tag.
  destruct (assoc EmptyString (values (hnode H))); reflexivity.
Qed.

Lemma QueryValueEx_value (H : HKEY) :
  QueryValueEx H (Some "value"%string)
  = ([RegQueryValueEx (hpath H) (Some "value"%string)],
     match named_value (hnode H) with
     | Some d => Ok d
     | None => Raise WindowsError
     end).
Proof.
  unfold QueryValueEx, named_value.
  destruct (assoc "value"%string (values (hnode H))); reflexivity.
Qed.

Lemma scan_plkparent_cons (P : HKEY) (j : nat) (rest : list nat)
    (uk : option str) :
  j < 16 ->
  scan_plkparent P (j :: rest) uk =
  match subkey (hnode P) j with
  | None => ([RegOpenKey (hpath P) (fmt04d j)], Ok uk)
  | Some lf =>
      match type_tag lf with
      | None => (leaf_events P j, Raise WindowsError)
      | Some t =>
          if str_eqb t (b "privateLicenseKey") then
            match named_value lf with
            | Some v => (leaf_events P j ++ [value_event P j], Ok (Some v))
            | None => (leaf_events P j ++ [value_event P j], Raise WindowsError)
            end
          else prepend (leaf_events P j) (scan_plkparent P rest uk)
      end
  end.
Proof.
  intros Hj. cbn [scan_plkparent]. rewrite (OpenKey_index P Hj).
  destruct (subkey (hnode P) j) as [lf|]; [|reflexivity].
  unfold except_WindowsError. rewrite bind_eq.
  rewrite QueryValueEx_default. cbn [child_handle hnode hpath].
  destruct (type_tag lf) as [t|]; [|reflexivity].
  rewrite bind_eq.
  destruct (str_eqb t (b "privateLicenseKey")); cbn [negb].
  - rewrite QueryValueEx_value. cbn [child_handle hnode hpath].
    destruct (named_value lf); reflexivity.
  - unfold prepend. cbn [fst snd app]. reflexivity.
Qed.

Lemma prepend_app (A : Type) (l l' : list event) (m : M A) :
  prepend l (prepend l' m) = prepend (l ++ l') m.
Proof. unfold prepend. cbn [fst snd]. now rewrite app_assoc. Qed.

Lemma scan_plkroot_cons (R : HKEY) (i : nat) (rest : list nat)
    (uk : option str) :
  i < 16 ->
  scan_plkroot R (i :: rest) uk =
  match subkey (hnode R) i with
  | None => ([RegOpenKey (hpath R) (fmt04d i)], Ok uk)
  | Some nd =>
      match type_tag nd with
      | None => (leaf_events R i, Raise WindowsError)
      | Some t =>
          if str_eqb t (b "credentials") then
            match scan_plkparent (child_handle R i nd) (xrange 0 16) uk with
            | (tr, Ok (Some v)) => (leaf_events R i ++ tr, Ok (Some v))
            | (tr, Ok None) =>
                prepend (leaf_events R i ++ tr) (scan_plkroot R rest None)
            | (tr, Raise e) => (leaf_events R i ++ tr, Raise e)
            end
          else prepend (leaf_events R i) (scan_plkroot R rest uk)
      end
  end.
Proof.
  intros Hi. cbn [scan_plkroot]. rewrite (OpenKey_index R Hi).
  destruct (subkey (hnode R) i) as [nd|]; [|reflexivity].
  unfold except_WindowsError. rewrite bind_eq.
  rewrite QueryValueEx_default. cbn [child_handle hnode hpath].
  destruct (type_tag nd) as [t|]; [|reflexivity].
  rewrite bind_eq.
  destruct (str_eqb t (b "credentials")); cbn [negb].
  - fold (child_handle R i nd).
    destruct (scan_plkparent (child_handle R i nd) (xrange 0 16) uk)
      as [tr [[v|]|e]].
    + rewrite bind_eq. unfold prepend, ret. cbn [fst snd].
      now rewrite app_nil_r.
    + rewrite bind_eq, prepend_app. reflexivity.
    + reflexivity.
  - reflexivity.
Qed.

(** ** What a scan logs *)

Lemma opens_of_app (q : list string) (l l' : list event) :
  opens_of q (l ++ l') = opens_of q l ++ opens_of q l'.
Proof. unfold opens_of. apply flat_map_app. Qed.

Lemma opens_of_leaf_events_same (P : HKEY) (j : nat) :
  opens_of (hpath P) (leaf_events P j) = [fmt04d j].
Proof.
  unfold opens_of, leaf_events. cbn [flat_map app].
  destruct (list_eq_dec string_dec (hpath P) (hpath P)); [reflexivity|].
  congruence.
Qed.

Lemma opens_of_leaf_events_other (P : HKEY) (j : nat) (q : list string) :
  q <> hpath P -> opens_of q (leaf_events P j) = [].
Proof.
  intros Hq. unfold opens_of, leaf_events. cbn [flat_map app].
  destruct (list_eq_dec string_dec (hpath P) q); [congruence|reflexivity].
Qed.

Lemma opens_of_open_same (p : list string) (s : string) :
  opens_of p [RegOpenKey p s] = [s].
Proof.
  unfold opens_of. cbn [flat_map app].
  destruct (list_eq_dec string_dec p p); [reflexivity|congruence].
Qed.

Lemma opens_of_open_other (p q : list string) (s : string) :
  q <> p -> opens_of q [RegOpenKey p s] = [].
Proof.
  intros Hq. unfold opens_of. cbn [flat_map app].
  destruct (list_eq_dec string_dec p q); [congruence|reflexivity].
Qed.

Lemma opens_of_value_event (P : HKEY) (j : nat) (q : list string) :
  opens_of q [value_event P j] = [].
Proof. reflexivity. Qed.

(** ** Reading the predicates *)

Lemma other_leaf_inv (nd : RegKey) (j : nat) :
  other_leaf nd j = true ->
  exists lf t, subkey nd j = Some lf /\ type_tag lf = Some t
               /\ str_eqb t (b "privateLicenseKey") = false.
Proof.
  unfold other_leaf. destruct (subkey nd j) as [lf|]; [|discriminate].
  destruct (type_tag lf) as [t|] eqn:Et; [|discriminate].
  intros H. exists lf, t. split; [reflexivity|]. split; [exact Et|].
  now apply negb_true_iff.
Qed.

Lemma tagged_inv (k : RegKey) (name : string) :
  tagged k name = true ->
  exists t, type_tag k = Some t /\ str_eqb t (b name) = true.
Proof.
  unfold tagged. destruct (type_tag k) as [t|]; [|discriminate].
  intros H. now exists t.
Qed.

Lemma forallb_seq (f : nat -> bool) (a n : nat) :
  forallb f (seq a n) = true <-> (forall k, a <= k < a + n -> f k = true).
Proof.
  rewrite forallb_forall. split.
  - intros H k Hk. apply H. apply in_seq. lia.
  - intros H k Hk. apply H. apply in_seq in Hk. lia.
Qed.

Lemma path_neq_child (p : list string) (s : string) : p ++ [s] <> p.
Proof.
  intros H. apply (f_equal (@List.length string)) in H.
  rewrite length_app in H. cbn in H. lia.
Qed.

Lemma child_neq (p : list string) (i j : nat) :
  i < 16 -> j < 16 -> i <> j -> p ++ [fmt04d i] <> p ++ [fmt04d j].
Proof.
  intros Hi Hj Hne H. apply app_inv_head in H. injection H as H.
  apply Hne. now apply fmt04d_inj.
Qed.

Lemma ends_with_app (l tr : list event) (e : event) :
  ends_with tr e -> ends_with (l ++ tr) e.
Proof. intros [tr' ->]. exists (l ++ tr'). now rewrite app_assoc. Qed.

Lemma confined_leaf_events (P : HKEY) (j : nat) (tr : list event) :
  confined P tr -> confined P (leaf_events P j ++ tr).
Proof.
  intros H q Hq. rewrite opens_of_app, (opens_of_leaf_events_other P j Hq).
  now apply H.
Qed.

Lemma hit_inv (nd : RegKey) (j : nat) (v : str) :
  licence_key_at nd j v = true <->
  j < 16 /\ (forall k, k < j -> other_leaf nd k = true)
  /\ exists lf t, subkey nd j = Some lf /\ type_tag lf = Some t
                  /\ str_eqb t (b "privateLicenseKey") = true
                  /\ named_value lf = Some v.
Proof.
  unfold licence_key_at. rewrite !andb_true_iff, forallb_seq, Nat.ltb_lt.
  split.
  - intros [[Hj Hk] Hlf]. split; [exact Hj|]. split.
    + intros k Hlt. apply Hk. lia.
    + destruct (subkey nd j) as [lf|]; [|discriminate].
      apply andb_true_iff in Hlf as [Ht Hv].
      apply tagged_inv in Ht as [t [Ht Heq]].
      destruct (named_value lf) as [v'|] eqn:Ev; [|discriminate].
      apply str_eqb_eq in Hv. subst v'. exists lf, t.
      split; [reflexivity|]. split; [exact Ht|]. split; [exact Heq|].
      exact Ev.
  - intros [Hj [Hk [lf [t [-> [Ht [Heq Hv]]]]]]]. split; [split|].
    + exact Hj.
    + intros k Hlt. apply Hk. lia.
    + unfold tagged. rewrite Ht, Heq, Hv. now rewrite str_eqb_refl.
Qed.

(** ** The scan under one depth-1 key *)

Section Inner.
Variable P : HKEY.
Variable uk : option str.
Local Abbreviation nd := (hnode P).

Lemma scan_plkparent_found (v : str) (j : nat) :
  j < 16 ->
  (exists lf t, subkey nd j = Some lf /\ type_tag lf = Some t
                /\ str_eqb t (b "privateLicenseKey") = true
                /\ named_value lf = Some v) ->
  forall d a, a + d = 16 -> a <= j ->
  (forall k, a <= k < j -> other_leaf nd k = true) ->
  exists tr,
    scan_plkparent P (seq a d) uk = (tr, Ok (Some v))
    /\ opens_of (hpath P) tr = map fmt04d (seq a (S j - a))
    /\ confined P tr
    /\ ends_with tr (value_event P j).
Proof.
  intros Hj [lf [t [Hlf [Ht [Heq Hv]]]]].
  induction d as [|d IH]; intros a Had Haj Hskip; [lia|].
  cbn [seq]. rewrite scan_plkparent_cons by lia.
  destruct (Nat.eq_dec a j) as [->|Hne].
  - rewrite Hlf, Ht, Heq, Hv. eexists. split; [reflexivity|].
    replace (S j - j) with 1 by lia. cbn [seq map].
    split; [|split].
    + rewrite opens_of_app, opens_of_leaf_events_same. reflexivity.
    + intros q Hq. rewrite opens_of_app.
      now rewrite (opens_of_leaf_events_other P j Hq).
    + now exists (leaf_events P j).
  - destruct (other_leaf_inv nd a (Hskip a ltac:(lia)))
      as [lf' [t' [Hlf' [Ht' Heq']]]].
    rewrite Hlf', Ht', Heq'.
    destruct (IH (S a) ltac:(lia) ltac:(lia)) as [tr [Htr [Hop [Hconf Hend]]]].
    { intros k Hk. apply Hskip. lia. }
    rewrite Htr. unfold prepend. cbn [fst snd].
    eexists. split; [reflexivity|]. split; [|split].
    + rewrite opens_of_app, opens_of_leaf_events_same, Hop.
      replace (S j - a) with (S (S j - S a)) by lia. reflexivity.
    + now apply confined_leaf_events.
    + now apply ends_with_app.
Qed.

Lemma scan_plkparent_none :
  forall d a, a + d = 16 ->
  forallb (other_leaf nd) (seq a (openable_prefix nd (seq a d))) = true ->
  exists tr,
    scan_plkparent P (seq a d) uk = (tr, Ok uk)
    /\ opens_of (hpath P) tr
       = map fmt04d (seq a (Nat.min d (S (openable_prefix nd (seq a d)))))
    /\ confined P tr.
Proof.
  induction d as [|d IH]; intros a Had Hall.
  - exists []. split; [reflexivity|]. split; [reflexivity|].
    intros q Hq. reflexivity.
  - cbn [seq] in *. rewrite scan_plkparent_cons by lia.
    cbn [openable_prefix] in *.
    destruct (subkey nd a) as [lf|] eqn:Hlf.
    + cbn [seq forallb] in Hall. apply andb_true_iff in Hall as [Ha Hall].
      destruct (other_leaf_inv nd a Ha) as [lf' [t' [Hlf' [Ht' Heq']]]].
      rewrite Hlf in Hlf'. injection Hlf' as <-.
      rewrite Ht', Heq'.
      destruct (IH (S a) ltac:(lia) Hall) as [tr [Htr [Hop Hconf]]].
      rewrite Htr. unfold prepend. cbn [fst snd].
      eexists. split; [reflexivity|]. split.
      * rewrite opens_of_app, opens_of_leaf_events_same, Hop.
        rewrite <- Nat.succ_min_distr. reflexivity.
      * now apply confined_leaf_events.
    + eexists. split; [reflexivity|]. split.
      * rewrite opens_of_open_same.
        replace (Nat.min (S d) 1) with 1 by lia. reflexivity.
      * intros q Hq. now apply opens_of_open_other.
Qed.

(** Whatever the outcome, the children are tried in ascending order from
    the first index of the range, and never past the first one that
    cannot be opened. *)
Lemma scan_plkparent_opens :
  forall d a, a + d = 16 ->
  (exists n, n <= Nat.min d (S (openable_prefix nd (seq a d)))
             /\ opens_of (hpath P) (fst (scan_plkparent P (seq a d) uk))
                = map fmt04d (seq a n))
  /\ confined P (fst (scan_plkparent P (seq a d) uk)).
Proof.
  induction d as [|d IH]; intros a Had.
  - split; [exists 0; split; [lia|reflexivity]|]. intros q Hq. reflexivity.
  - cbn [seq]. rewrite scan_plkparent_cons by lia.
    cbn [openable_prefix].
    destruct (IH (S a) ltac:(lia)) as [[n [Hn Hop]] Hconf].
    destruct (subkey nd a) as [lf|] eqn:Hlf.
    + destruct (type_tag lf) as [t|].
      * destruct (str_eqb t (b "privateLicenseKey")).
        -- assert (Hc : forall r : res (option str),
                     (exists n0, n0 <= Nat.min (S d)
                          (S (S (openable_prefix nd (seq (S a) d))))
                        /\ opens_of (hpath P)
                             (fst (leaf_events P a ++ [value_event P a], r))
                           = map fmt04d (seq a n0))
                     /\ confined P
                          (fst (leaf_events P a ++ [value_event P a], r))).
           { intros r. cbn [fst]. split.
             - exists 1. split; [lia|].
               rewrite opens_of_app, opens_of_leaf_events_same. reflexivity.
             - intros q Hq. rewrite opens_of_app.
               now rewrite (opens_of_leaf_events_other P a Hq). }
           destruct (named_value lf); apply Hc.
        -- unfold prepend. cbn [fst]. split.
           ++ exists (S n). split; [lia|].
              rewrite opens_of_app, opens_of_leaf_events_same, Hop.
              reflexivity.
           ++ now apply confined_leaf_events.
      * cbn [fst]. split.
        -- exists 1. split; [lia|]. apply opens_of_leaf_events_same.
        -- intros q Hq. now apply opens_of_leaf_events_other.
    + cbn [fst]. split.
      * exists 1. split; [lia|]. apply opens_of_open_same.
      * intros q Hq. now apply opens_of_open_other.
Qed.

End Inner.

Lemma scan_plkparent_sound (P : HKEY) :
  forall d a, a + d = 16 ->
  forall tr r, scan_plkparent P (seq a d) None = (tr, Ok r) ->
  match r with
  | Some v =>
      exists j, a <= j < 16
        /\ (forall k, a <= k < j -> other_leaf (hnode P) k = true)
        /\ exists lf t, subkey (hnode P) j = Some lf /\ type_tag lf = Some t
                        /\ str_eqb t (b "privateLicenseKey") = true
                        /\ named_value lf = Some v
  | None =>
      forallb (other_leaf (hnode P))
              (seq a (openable_prefix (hnode P) (seq a d))) = true
  end.
Proof.
  induction d as [|d IH]; intros a Had tr r Hscan.
  - cbn in Hscan. injection Hscan as <- <-. reflexivity.
  - cbn [seq] in Hscan. rewrite scan_plkparent_cons in Hscan by lia.
    cbn [seq openable_prefix].
    destruct (subkey (hnode P) a) as [lf|] eqn:Hlf.
    + destruct (type_tag lf) as [t|] eqn:Ht; [|discriminate].
      destruct (str_eqb t (b "privateLicenseKey")) eqn:Heq.
      * destruct (named_value lf) as [v|] eqn:Hv; [|discriminate].
        injection Hscan as <- <-. exists a. split; [lia|]. split.
        -- intros k Hk. lia.
        -- exists lf, t. auto.
      * unfold prepend in Hscan.
        destruct (scan_plkparent P (seq (S a) d) None) as [tr' r'] eqn:Hrest.
        cbn [fst snd] in Hscan. injection Hscan as <- ->.
        specialize (IH (S a) ltac:(lia) tr' r Hrest).
        assert (Ha : other_leaf (hnode P) a = true).
        { unfold other_leaf. now rewrite Hlf, Ht, Heq. }
        destruct r as [v|].
        -- destruct IH as [j [Hj [Hk Hhit]]]. exists j. split; [lia|]. split.
           ++ intros k Hka. destruct (Nat.eq_dec k a) as [->|]; [exact Ha|].
              apply Hk. lia.
           ++ exact Hhit.
        -- cbn [seq forallb]. now rewrite Ha, IH.
    + injection Hscan as <- <-. reflexivity.
Qed.

(** ** The scan under the activation key *)

Lemma passed_over_inv (root : RegKey) (i : nat) :
  passed_over root i = true ->
  exists nd t, subkey root i = Some nd /\ type_tag nd = Some t
    /\ (str_eqb t (b "credentials") = true -> no_licence_key nd = true).
Proof.
  unfold passed_over. destruct (subkey root i) as [nd|]; [|discriminate].
  destruct (type_tag nd) as [t|] eqn:Ht; [|discriminate].
  intros H. exists nd, t. split; [reflexivity|]. split; [exact Ht|].
  intros Hc. now rewrite Hc in H.
Qed.

Lemma xrange_0_16 : xrange 0 16 = seq 0 16.
Proof. reflexivity. Qed.

Section Outer.
Variable R : HKEY.
Local Abbreviation root := (hnode R).

Lemma scan_plkroot_found (v : str) (i j : nat) :
  i < 16 ->
  (exists nd, subkey root i = Some nd /\ tagged nd "credentials" = true
              /\ licence_key_at nd j v = true) ->
  forall d a, a + d = 16 -> a <= i ->
  (forall k, a <= k < i -> passed_over root k = true) ->
  exists tr,
    scan_plkroot R (seq a d) None = (tr, Ok (Some v))
    /\ opens_of (hpath R) tr = map fmt04d (seq a (S i - a))
    /\ opens_of (hpath R ++ [fmt04d i]) tr = map fmt04d (seq 0 (S j))
    /\ ends_with tr (RegQueryValueEx (hpath R ++ [fmt04d i; fmt04d j])
                                     (Some "value"%string)).
Proof.
  intros Hi [nd [Hnd [Hcred Hhit]]].
  apply tagged_inv in Hcred as [t [Ht Heq]].
  apply hit_inv in Hhit as [Hj [Hskip Hleaf]].
  induction d as [|d IH]; intros a Had Hai Hpass; [lia|].
  cbn [seq]. rewrite scan_plkroot_cons by lia.
  destruct (Nat.eq_dec a i) as [->|Hne].
  - rewrite Hnd, Ht, Heq, xrange_0_16.
    destruct (@scan_plkparent_found (child_handle R i nd) None v j Hj Hleaf
                16 0 eq_refl ltac:(lia)) as [tr [Htr [Hop [Hconf Hend]]]].
    { intros k Hk. apply Hskip. lia. }
    rewrite Htr. eexists. split; [reflexivity|]. split; [|split].
    + rewrite opens_of_app, opens_of_leaf_events_same.
      rewrite (Hconf (hpath R)).
      * replace (S i - i) with 1 by lia. reflexivity.
      * cbn [child_handle hpath]. intros H. symmetry in H.
        now apply path_neq_child in H.
    + rewrite opens_of_app, opens_of_leaf_events_other by apply path_neq_child.
      cbn [app]. cbn [child_handle hpath] in Hop. rewrite Hop.
      now rewrite Nat.sub_0_r.
    + apply ends_with_app. unfold value_event in Hend.
      cbn [child_handle hpath] in Hend. now rewrite <- app_assoc in Hend.
  - destruct (passed_over_inv root a (Hpass a ltac:(lia)))
      as [nd' [t' [Hnd' [Ht' Hbarren]]]].
    rewrite Hnd', Ht'.
    destruct (IH (S a) ltac:(lia) ltac:(lia)) as [tr [Htr [Hop [Hop2 Hend]]]].
    { intros k Hk. apply Hpass. lia. }
    assert (Hother : opens_of (hpath R ++ [fmt04d i]) (leaf_events R a) = [])
      by (apply opens_of_leaf_events_other; apply path_neq_child).
    destruct (str_eqb t' (b "credentials")) eqn:Heq'.
    + rewrite xrange_0_16.
      destruct (@scan_plkparent_none (child_handle R a nd') None 16 0 eq_refl
                  (Hbarren eq_refl)) as [tr' [Htr' [_ Hconf']]].
      rewrite Htr', Htr. unfold prepend. cbn [fst snd].
      eexists. split; [reflexivity|]. split; [|split].
      * rewrite !opens_of_app, opens_of_leaf_events_same, Hop.
        rewrite (Hconf' (hpath R)).
        -- replace (S i - a) with (S (S i - S a)) by lia. reflexivity.
        -- cbn [child_handle hpath]. intros H. symmetry in H.
           now apply path_neq_child in H.
      * rewrite !opens_of_app, Hother, Hop2.
        rewrite (Hconf' (hpath R ++ [fmt04d i])); [reflexivity|].
        cbn [child_handle hpath]. apply child_neq; lia.
      * now apply ends_with_app.
    + rewrite Htr. unfold prepend. cbn [fst snd].
      eexists. split; [reflexivity|]. split; [|split].
      * rewrite opens_of_app, opens_of_leaf_events_same, Hop.
        replace (S i - a) with (S (S i - S a)) by lia. reflexivity.
      * rewrite opens_of_app, Hother, Hop2. reflexivity.
      * now apply ends_with_app.
Qed.

Lemma scan_plkroot_none :
  forall d a, a + d = 16 ->
  forallb (passed_over root) (seq a (openable_prefix root (seq a d))) = true ->
  exists tr,
    scan_plkroot R (seq a d) None = (tr, Ok None)
    /\ opens_of (hpath R) tr
       = map fmt04d (seq a (Nat.min d (S (openable_prefix root (seq a d))))).
Proof.
  induction d as [|d IH]; intros a Had Hall.
  - exists []. split; reflexivity.
  - cbn [seq] in *. rewrite scan_plkroot_cons by lia.
    cbn [openable_prefix] in *.
    destruct (subkey root a) as [nd|] eqn:Hnd.
    + cbn [seq forallb] in Hall. apply andb_true_iff in Hall as [Ha Hall].
      destruct (passed_over_inv root a Ha) as [nd' [t [Hnd' [Ht Hbarren]]]].
      rewrite Hnd in Hnd'. injection Hnd' as <-. rewrite Ht.
      destruct (IH (S a) ltac:(lia) Hall) as [tr [Htr Hop]].
      destruct (str_eqb t (b "credentials")) eqn:Heq.
      * rewrite xrange_0_16.
        destruct (@scan_plkparent_none (child_handle R a nd) None 16 0 eq_refl
                    (Hbarren eq_refl)) as [tr' [Htr' [_ Hconf']]].
        rewrite Htr', Htr. unfold prepend. cbn [fst snd].
        eexists. split; [reflexivity|].
        rewrite !opens_of_app, opens_of_leaf_events_same, Hop.
        rewrite (Hconf' (hpath R)).
        -- rewrite <- Nat.succ_min_distr. reflexivity.
        -- cbn [child_handle hpath]. intros H. symmetry in H.
           now apply path_neq_child in H.
      * rewrite Htr. unfold prepend. cbn [fst snd].
        eexists. split; [reflexivity|].
        rewrite opens_of_app, opens_of_leaf_events_same, Hop.
        rewrite <- Nat.succ_min_distr. reflexivity.
    + eexists. split; [reflexivity|].
      rewrite opens_of_open_same.
      replace (Nat.min (S d) 1) with 1 by lia. reflexivity.
Qed.

End Outer.

Lemma scan_plkroot_sound (R : HKEY) :
  forall d a, a + d = 16 ->
  forall tr r, scan_plkroot R (seq a d) None = (tr, Ok r) ->
  match r with
  | Some v =>
      exists i j, a <= i < 16
        /\ (forall k, a <= k < i -> passed_over (hnode R) k = true)
        /\ exists nd, subkey (hnode R) i = Some nd
                      /\ tagged nd "credentials" = true
                      /\ licence_key_at nd j v = true
  | None =>
      forallb (passed_over (hnode R))
              (seq a (openable_prefix (hnode R) (seq a d))) = true
  end.
Proof.
  induction d as [|d IH]; intros a Had tr r Hscan.
  - cbn in Hscan. injection Hscan as <- <-. reflexivity.
  - cbn [seq] in Hscan. rewrite scan_plkroot_cons in Hscan by lia.
    cbn [seq openable_prefix].
    destruct (subkey (hnode R) a) as [nd|] eqn:Hnd;
      [|injection Hscan as <- <-; reflexivity].
    destruct (type_tag nd) as [t|] eqn:Ht; [|discriminate].
    assert (Hstep : forall tr' r',
              passed_over (hnode R) a = true ->
              scan_plkroot R (seq (S a) d) None = (tr', Ok r') ->
              match r' with
              | Some v =>
                  exists i j, a <= i < 16
                    /\ (forall k, a <= k < i -> passed_over (hnode R) k = true)
                    /\ exists nd, subkey (hnode R) i = Some nd
                                  /\ tagged nd "credentials" = true
                                  /\ licence_key_at nd j v = true
              | None =>
                  forallb (passed_over (hnode R))
                    (seq a (S (openable_prefix (hnode R) (seq (S a) d))))
                  = true
              end).
    { intros tr' r' Ha Hrest.
      specialize (IH (S a) ltac:(lia) tr' r' Hrest).
      destruct r' as [v|].
      - destruct IH as [i [j [Hi [Hk Hhit]]]]. exists i, j.
        split; [lia|]. split; [|exact Hhit].
        intros k Hka. destruct (Nat.eq_dec k a) as [->|]; [exact Ha|].
        apply Hk. lia.
      - cbn [seq forallb]. now rewrite Ha, IH. }
    destruct (str_eqb t (b "credentials")) eqn:Heq.
    + rewrite xrange_0_16 in Hscan.
      destruct (scan_plkparent (child_handle R a nd) (seq 0 16) None)
        as [tr_in [[v|]|e]] eqn:Hin; [| |discriminate].
      * injection Hscan as <- <-.
        pose proof (@scan_plkparent_sound (child_handle R a nd) 16 0 eq_refl
                      _ _ Hin) as [j [Hj [Hk Hleaf]]].
        cbn [child_handle hnode] in Hk, Hleaf.
        exists a, j. split; [lia|]. split; [intros k Hka; lia|].
        exists nd. split; [exact Hnd|]. split.
        -- unfold tagged. now rewrite Ht.
        -- apply hit_inv. split; [lia|]. split; [|exact Hleaf].
           intros k Hlt. apply Hk. lia.
      * pose proof (@scan_plkparent_sound (child_handle R a nd) 16 0 eq_refl
                      _ _ Hin) as Hbarren.
        cbn [child_handle hnode] in Hbarren.
        unfold prepend in Hscan.
        destruct (scan_plkroot R (seq (S a) d) None) as [tr' r'] eqn:Hrest.
        cbn [fst snd] in Hscan. injection Hscan as <- ->.
        apply (Hstep tr' r); [|reflexivity].
        unfold passed_over. rewrite Hnd, Ht, Heq. exact Hbarren.
    + unfold prepend in Hscan.
      destruct (scan_plkroot R (seq (S a) d) None) as [tr' r'] eqn:Hrest.
      cbn [fst snd] in Hscan. injection Hscan as <- ->.
      apply (Hstep tr' r); [|reflexivity].
      unfold passed_over. now rewrite Hnd, Ht, Heq.
Qed.

Lemma opens_of_cons_open (q p : list string) (s : string) (tr : list event) :
  opens_of q (RegOpenKey p s :: tr)
  = opens_of q [RegOpenKey p s] ++ opens_of q tr.
Proof. apply (opens_of_app q [RegOpenKey p s] tr). Qed.

Section Shape.
Variable R : HKEY.
Local Abbreviation root := (hnode R).

Lemma scan_plkroot_shape (a : nat) (rest : list nat) :
  a < 16 ->
  exists E X Y,
    fst (scan_plkroot R (a :: rest) None)
    = RegOpenKey (hpath R) (fmt04d a) :: E ++ X ++ Y
    /\ (forall q, opens_of q E = [])
    /\ (X = [] \/
        exists nd, subkey root a = Some nd
          /\ X = fst (scan_plkparent (child_handle R a nd) (seq 0 16) None))
    /\ (Y = [] \/
        (subkey root a <> None /\ Y = fst (scan_plkroot R rest None))).
Proof.
  intros Ha. rewrite scan_plkroot_cons by lia.
  destruct (subkey root a) as [nd|] eqn:Hnd.
  - destruct (type_tag nd) as [t|].
    + destruct (str_eqb t (b "credentials")).
      * rewrite xrange_0_16.
        destruct (scan_plkparent (child_handle R a nd) (seq 0 16) None)
          as [tr_in [[v|]|e]] eqn:Hin.
        -- exists [RegQueryValueEx (hpath R ++ [fmt04d a]) None], tr_in, [].
           cbn [fst]. rewrite app_nil_r. split; [reflexivity|].
           split; [reflexivity|]. split; [|now left].
           right. exists nd. split; [reflexivity|]. now rewrite Hin.
        -- exists [RegQueryValueEx (hpath R ++ [fmt04d a]) None], tr_in,
             (fst (scan_plkroot R rest None)).
           unfold prepend. cbn [fst]. split.
           ++ unfold leaf_events. cbn [app]. reflexivity.
           ++ split; [reflexivity|]. split.
              ** right. exists nd. split; [reflexivity|]. now rewrite Hin.
              ** right. split; [discriminate|reflexivity].
        -- exists [RegQueryValueEx (hpath R ++ [fmt04d a]) None], tr_in, [].
           cbn [fst]. rewrite app_nil_r. split; [reflexivity|].
           split; [reflexivity|]. split; [|now left].
           right. exists nd. split; [reflexivity|]. now rewrite Hin.
      * exists [RegQueryValueEx (hpath R ++ [fmt04d a]) None], [],
          (fst (scan_plkroot R rest None)).
        unfold prepend. cbn [fst]. split; [reflexivity|].
        split; [reflexivity|]. split; [now left|].
        right. split; [discriminate|reflexivity].
    + exists [RegQueryValueEx (hpath R ++ [fmt04d a]) None], [], [].
      cbn [fst]. split; [reflexivity|]. split; [reflexivity|].
      split; now left.
  - exists [], [], []. cbn [fst]. split; [reflexivity|].
    split; [reflexivity|]. split; now left.
Qed.

Lemma scan_plkroot_opens :
  forall d a, a + d = 16 ->
  let tr := fst (scan_plkroot R (seq a d) None) in
  (exists n, n <= Nat.min d (S (openable_prefix root (seq a d)))
             /\ opens_of (hpath R) tr = map fmt04d (seq a n))
  /\ (forall q, q <> hpath R ->
        (forall i, a <= i < 16 -> q <> hpath R ++ [fmt04d i]) ->
        opens_of q tr = [])
  /\ (forall i, a <= i < 16 ->
        exists m, m <= 16
          /\ (forall nd, subkey root i = Some nd -> m <= S (enumerated nd))
          /\ opens_of (hpath R ++ [fmt04d i]) tr = map fmt04d (seq 0 m)).
Proof.
  induction d as [|d IH]; intros a Had; cbv zeta.
  - cbn [seq scan_plkroot ret fst]. split; [|split].
    + exists 0. split; [lia|reflexivity].
    + reflexivity.
    + intros i Hi. lia.
  - cbn [seq].
    destruct (@scan_plkroot_shape a (seq (S a) d) ltac:(lia))
      as [E [X [Y [Htr [HE [HX HY]]]]]].
    rewrite Htr. clear Htr.
    destruct (IH (S a) ltac:(lia)) as [[n' [Hn' HA]] [HB HC]].
    (* what the scan of child [a] logs *)
    assert (HXq : forall q, q <> hpath R ++ [fmt04d a] -> opens_of q X = []).
    { intros q Hq. destruct HX as [->|[nd [_ ->]]]; [reflexivity|].
      now apply (proj2 (@scan_plkparent_opens (child_handle R a nd) None
                          16 0 eq_refl)). }
    assert (HXa : exists m, m <= 16
              /\ (forall nd, subkey root a = Some nd -> m <= S (enumerated nd))
              /\ opens_of (hpath R ++ [fmt04d a]) X = map fmt04d (seq 0 m)).
    { destruct HX as [->|[nd [Hnd ->]]].
      - exists 0. split; [lia|]. split; [intros; lia|reflexivity].
      - destruct (proj1 (@scan_plkparent_opens (child_handle R a nd) None
                           16 0 eq_refl)) as [m [Hm Hop]].
        exists m. split; [lia|]. split; [|exact Hop].
        intros nd0 Hnd0. rewrite Hnd in Hnd0. injection Hnd0 as <-.
        cbn [child_handle hnode] in Hm. unfold enumerated. lia. }
    (* what the rest of the scan logs *)
    assert (HYroot : exists n, n <= Nat.min d
                         (S (openable_prefix root (seq (S a) d)))
              /\ (n = 0 \/ subkey root a <> None)
              /\ opens_of (hpath R) Y = map fmt04d (seq (S a) n)).
    { destruct HY as [->|[Hsome ->]].
      - exists 0. split; [lia|]. split; [now left|reflexivity].
      - exists n'. split; [exact Hn'|]. split; [now right|exact HA]. }
    assert (HYq : forall q, q <> hpath R ->
              (forall i, S a <= i < 16 -> q <> hpath R ++ [fmt04d i]) ->
              opens_of q Y = []).
    { intros q Hq Hqi. destruct HY as [->|[_ ->]]; [reflexivity|].
      now apply HB. }
    assert (HYi : forall i, S a <= i < 16 ->
              exists m, m <= 16
                /\ (forall nd, subkey root i = Some nd -> m <= S (enumerated nd))
                /\ opens_of (hpath R ++ [fmt04d i]) Y = map fmt04d (seq 0 m)).
    { intros i Hi. destruct HY as [->|[_ ->]].
      - exists 0. split; [lia|]. split; [intros; lia|reflexivity].
      - now apply HC. }
    split; [|split].
    + destruct HYroot as [n [Hn [Hzero Hop]]]. exists (S n). split.
      * cbn [openable_prefix].
        destruct (subkey root a); [lia|].
        destruct Hzero as [->|Hc]; [lia|congruence].
      * rewrite opens_of_cons_open, opens_of_open_same, !opens_of_app, HE.
        rewrite (HXq (hpath R)), Hop; [reflexivity|].
        intros H. symmetry in H. now apply path_neq_child in H.
    + intros q Hq Hqi.
      rewrite opens_of_cons_open, (opens_of_open_other _ Hq), !opens_of_app.
      rewrite HE, (HXq q), (HYq q); [reflexivity|exact Hq| |].
      * intros i Hi. apply Hqi. lia.
      * apply Hqi. lia.
    + intros i Hi.
      rewrite opens_of_cons_open,
        (@opens_of_open_other (hpath R) (hpath R ++ [fmt04d i]) _
           (@path_neq_child _ _)), !opens_of_app, HE.
      cbn [app]. destruct (Nat.eq_dec i a) as [->|Hne].
      * destruct HXa as [m [Hm [Hbound Hop]]]. exists m.
        split; [exact Hm|]. split; [exact Hbound|].
        rewrite Hop, (HYq (hpath R ++ [fmt04d a])).
        -- apply app_nil_r.
        -- apply path_neq_child.
        -- intros i Hi'. apply child_neq; lia.
      * destruct (HYi i ltac:(lia)) as [m [Hm [Hbound Hop]]]. exists m.
        split; [exact Hm|]. split; [exact Hbound|].
        rewrite (HXq (hpath R ++ [fmt04d i])), Hop; [reflexivity|].
        apply child_neq; lia.
Qed.

End Shape.

(** A walk that finds no licence key tries, under every credentials node
    it reaches, the children up to the first that cannot be opened. *)
Lemma scan_plkroot_none_under (R : HKEY) :
  forall d a, a + d = 16 ->
  forallb (passed_over (hnode R))
          (seq a (openable_prefix (hnode R) (seq a d))) = true ->
  forall i, i < 16 ->
  opens_of (hpath R ++ [fmt04d i]) (fst (scan_plkroot R (seq a d) None))
  = if (a <=? i) && (i <? a + openable_prefix (hnode R) (seq a d))
    then match subkey (hnode R) i with
         | Some nd =>
             if tagged nd "credentials"
             then map fmt04d (seq 0 (Nat.min 16 (S (enumerated nd))))
             else []
         | None => []
         end
    else [].
Proof.
  induction d as [|d IH]; intros a Had Hall i Hi.
  - cbn [seq scan_plkroot ret fst openable_prefix].
    destruct (Nat.leb_spec a i); destruct (Nat.ltb_spec i (a + 0));
      cbn [andb]; try reflexivity; lia.
  - cbn [seq] in *. rewrite scan_plkroot_cons by lia.
    cbn [openable_prefix] in *.
    destruct (subkey (hnode R) a) as [nd|] eqn:Hnd.
    + cbn [seq forallb] in Hall. apply andb_true_iff in Hall as [Ha Hall].
      destruct (passed_over_inv (hnode R) a Ha) as [nd' [t [Hnd' [Ht Hbarren]]]].
      rewrite Hnd in Hnd'. injection Hnd' as <-. rewrite Ht.
      specialize (IH (S a) ltac:(lia) Hall i Hi).
      assert (Hleaf : opens_of (hpath R ++ [fmt04d i]) (leaf_events R a) = [])
        by (apply opens_of_leaf_events_other; apply path_neq_child).
      assert (Hrest : i <> a ->
                (if (S a <=? i)
                    && (i <? S a + openable_prefix (hnode R) (seq (S a) d))
                 then match subkey (hnode R) i with
                      | Some nd0 =>
                          if tagged nd0 "credentials"
                          then map fmt04d
                                 (seq 0 (Nat.min 16 (S (enumerated nd0))))
                          else []
                      | None => []
                      end
                 else [])
                = (if (a <=? i)
                      && (i <? a + S (openable_prefix (hnode R) (seq (S a) d)))
                   then match subkey (hnode R) i with
                        | Some nd0 =>
                            if tagged nd0 "credentials"
                            then map fmt04d
                                   (seq 0 (Nat.min 16 (S (enumerated nd0))))
                            else []
                        | None => []
                        end
                   else [])).
      { intros Hne.
        destruct (Nat.leb_spec (S a) i); destruct (Nat.leb_spec a i);
          destruct (Nat.ltb_spec i
                      (S a + openable_prefix (hnode R) (seq (S a) d)));
          destruct (Nat.ltb_spec i
                      (a + S (openable_prefix (hnode R) (seq (S a) d))));
          cbn [andb]; try reflexivity; lia. }
      assert (Hself :
                (if (S a <=? a)
                    && (a <? S a + openable_prefix (hnode R) (seq (S a) d))
                 then match subkey (hnode R) a with
                      | Some nd0 =>
                          if tagged nd0 "credentials"
                          then map fmt04d
                                 (seq 0 (Nat.min 16 (S (enumerated nd0))))
                          else []
                      | None => []
                      end
                 else []) = []).
      { destruct (Nat.leb_spec (S a) a); [lia|reflexivity]. }
      assert (Hhere :
                (a <=? a)
                && (a <? a + S (openable_prefix (hnode R) (seq (S a) d)))
                = true).
      { apply andb_true_iff. split; [apply Nat.leb_le|apply Nat.ltb_lt]; lia. }
      destruct (str_eqb t (b "credentials")) eqn:Heq.
      * rewrite xrange_0_16.
        destruct (@scan_plkparent_none (child_handle R a nd) None 16 0 eq_refl
                    (Hbarren eq_refl)) as [tr' [Htr' [Hop' Hconf']]].
        rewrite Htr'. unfold prepend. cbn [fst snd].
        rewrite !opens_of_app, Hleaf. cbn [app]. rewrite IH.
        destruct (Nat.eq_dec i a) as [->|Hne].
        -- cbn [child_handle hpath hnode] in Hop'. rewrite Hop', Hself, Hhere.
           rewrite Hnd. unfold tagged. rewrite Ht, Heq. apply app_nil_r.
        -- rewrite (Hconf' (hpath R ++ [fmt04d i])).
           ++ cbn [app]. now apply Hrest.
           ++ cbn [child_handle hpath]. apply child_neq; lia.
      * unfold prepend. cbn [fst snd]. rewrite opens_of_app, Hleaf.
        cbn [app]. rewrite IH.
        destruct (Nat.eq_dec i a) as [->|Hne].
        -- rewrite Hself, Hhere, Hnd. unfold tagged. now rewrite Ht, Heq.
        -- now apply Hrest.
    + cbn [fst]. rewrite opens_of_open_other by apply path_neq_child.
      destruct (Nat.leb_spec a i); destruct (Nat.ltb_spec i (a + 0));
        cbn [andb]; try reflexivity; lia.
Qed.

(** ** The block as a whole *)

Lemma first_inv (root : RegKey) (i j : nat) (v : str) :
  first_licence_key root i j v = true <->
  i < 16 /\ (forall k, k < i -> passed_over root k = true)
  /\ exists nd, subkey root i = Some nd /\ tagged nd "credentials" = true
                /\ licence_key_at nd j v = true.
Proof.
  unfold first_licence_key. rewrite !andb_true_iff, forallb_seq, Nat.ltb_lt.
  split.
  - intros [[Hi Hk] Hnd]. split; [exact Hi|]. split.
    + intros k Hlt. apply Hk. lia.
    + destruct (subkey root i) as [nd|]; [|discriminate].
      apply andb_true_iff in Hnd as [Ht Hhit]. now exists nd.
  - intros [Hi [Hk [nd [-> [Ht Hhit]]]]]. split; [split|].
    + exact Hi.
    + intros k Hlt. apply Hk. lia.
    + now rewrite Ht, Hhit.
Qed.

Lemma split_PRIVATE_LICENCE_KEY_PATH :
  split backslash PRIVATE_LICENCE_KEY_PATH = activation_path.
Proof. vm_compute. reflexivity. Qed.

Lemma split_DEVICE_KEY_PATH :
  split backslash DEVICE_KEY_PATH = device_path.
Proof. vm_compute. reflexivity. Qed.

Lemma retrieve_key_userkey_open (h : Host) (root : RegKey) :
  open_path (HKEY_CURRENT_USER h) activation_path = Some root ->
  retrieve_key_userkey h
  = prepend [RegOpenKey [] PRIVATE_LICENCE_KEY_PATH]
      (insist (scan_plkroot (activation_handle root) (seq 0 16) None)).
Proof.
  intros Hopen. unfold retrieve_key_userkey, OpenKey, cuser.
  cbn [hpath hnode app]. rewrite split_PRIVATE_LICENCE_KEY_PATH, Hopen.
  fold (activation_handle root). rewrite xrange_0_16.
  unfold tell, ret, except_WindowsError, insist, prepend.
  cbn [bind app fst snd].
  destruct (scan_plkroot (activation_handle root) (seq 0 16) None)
    as [tr [[v|]|e]]; unfold raise; cbn [bind fst snd app];
    rewrite ?app_nil_r; reflexivity.
Qed.

Lemma retrieve_key_userkey_closed (h : Host) :
  open_path (HKEY_CURRENT_USER h) activation_path = None ->
  retrieve_key_userkey h
  = ([RegOpenKey [] PRIVATE_LICENCE_KEY_PATH],
     Raise (ADEPTError "Could not locate ADE activation")).
Proof.
  intros Hopen. unfold retrieve_key_userkey, OpenKey, cuser.
  cbn [hpath hnode app]. rewrite split_PRIVATE_LICENCE_KEY_PATH, Hopen.
  reflexivity.
Qed.

Lemma opens_of_after_root (q : list string) (s : string) (tr : list event) :
  q <> [] -> opens_of q (RegOpenKey [] s :: tr) = opens_of q tr.
Proof.
  intros Hq. rewrite opens_of_cons_open.
  now rewrite (@opens_of_open_other [] q s Hq).
Qed.

Lemma activation_path_not_nil : activation_path <> [].
Proof. discriminate. Qed.

Lemma activation_child_not_nil (s : string) : activation_path ++ [s] <> [].
Proof. discriminate. Qed.

Lemma trace_insist (m : M (option str)) : fst (insist m) = fst m.
Proof. destruct m as [tr [[v|]|e]]; reflexivity. Qed.

Lemma opens_of_In (q : list string) (s : string) (tr : list event) :
  In s (opens_of q tr) -> In (RegOpenKey q s) tr.
Proof.
  unfold opens_of. rewrite in_flat_map. intros [e [He Hs]].
  destruct e; try contradiction.
  destruct (list_eq_dec string_dec parent q) as [->|]; [|contradiction].
  destruct Hs as [->|[]]. exact He.
Qed.

(** The log and the outcome of the block in terms of the walk. *)
Lemma retrieve_key_userkey_found (h : Host) (root : RegKey)
    (i j : nat) (v : str) :
  open_path (HKEY_CURRENT_USER h) activation_path = Some root ->
  first_licence_key root i j v = true ->
  outcome (retrieve_key_userkey h) = Ok v
  /\ opens_of activation_path (trace (retrieve_key_userkey h))
     = map fmt04d (seq 0 (S i))
  /\ opens_of (activation_path ++ [fmt04d i]) (trace (retrieve_key_userkey h))
     = map fmt04d (seq 0 (S j))
  /\ ends_with (trace (retrieve_key_userkey h))
       (RegQueryValueEx (activation_path ++ [fmt04d i; fmt04d j])
                        (Some "value"%string)).
Proof.
  intros Hopen Hfirst. apply first_inv in Hfirst as [Hi [Hpass Hnd]].
  destruct (@scan_plkroot_found (activation_handle root) v i j Hi Hnd
              16 0 eq_refl ltac:(lia)) as [tr [Htr [Hop [Hop2 Hend]]]].
  { intros k Hk. apply Hpass. lia. }
  rewrite (retrieve_key_userkey_open h Hopen), Htr.
  unfold outcome, trace, prepend, insist. cbn [fst snd app].
  cbn [activation_handle hpath] in Hop, Hop2, Hend.
  split; [reflexivity|]. split; [|split].
  - rewrite opens_of_after_root by apply activation_path_not_nil.
    rewrite Hop. now rewrite Nat.sub_0_r.
  - rewrite opens_of_after_root by apply activation_child_not_nil.
    exact Hop2.
  - apply (ends_with_app [RegOpenKey [] PRIVATE_LICENCE_KEY_PATH]) in Hend.
    exact Hend.
Qed.

Lemma retrieve_key_userkey_sound (h : Host) (root : RegKey) (v : str) :
  open_path (HKEY_CURRENT_USER h) activation_path = Some root ->
  outcome (retrieve_key_userkey h) = Ok v ->
  exists i j, first_licence_key root i j v = true.
Proof.
  intros Hopen Hout. rewrite (retrieve_key_userkey_open h Hopen) in Hout.
  destruct (scan_plkroot (activation_handle root) (seq 0 16) None)
    as [tr [[v'|]|e]] eqn:Hscan; cbn in Hout; try discriminate.
  injection Hout as ->.
  pose proof (@scan_plkroot_sound (activation_handle root) 16 0 eq_refl
                _ _ Hscan) as [i [j [Hi [Hpass Hnd]]]].
  cbn [activation_handle hnode] in Hpass, Hnd.
  exists i, j. apply first_inv. split; [lia|]. split; [|exact Hnd].
  intros k Hk. apply Hpass. lia.
Qed.

(** C2: the walk returns the payload of the first leaf tagged
    [privateLicenseKey] in index order (depth-1 index ascending, then
    depth-2 index ascending under the credentials node that holds it) and
    stops there: the children of the activation key are tried from "0000"
    up to that node, the children of that node from "0000" up to that
    leaf, and the last call made is the read of the leaf's payload.
    Whatever the walk returns is the payload of such a first leaf. *)
Theorem walk_returns_first_licence_key (h : Host) (root : RegKey) :
  open_path (HKEY_CURRENT_USER h) activation_path = Some root ->
  let m := retrieve_key_userkey h in
  (forall i j v, first_licence_key root i j v = true ->
     outcome m = Ok v
     /\ opens_of activation_path (trace m) = map fmt04d (seq 0 (S i))
     /\ opens_of (activation_path ++ [fmt04d i]) (trace m)
        = map fmt04d (seq 0 (S j))
     /\ ends_with (trace m)
          (RegQueryValueEx (activation_path ++ [fmt04d i; fmt04d j])
                           (Some "value"%string)))
  /\ (forall v, outcome m = Ok v ->
        exists i j, first_licence_key root i j v = true).
Proof.
  intros Hopen m. split.
  - intros i j v Hfirst. now apply retrieve_key_userkey_found with (root := root).
  - intros v Hout. now apply retrieve_key_userkey_sound with (h := h).
Qed.

(** The tree of the description: credentials at "0003", licence key at
    "0007". *)
Lemma walk_returns_first_licence_key_witness :
  let h := Doubles.windows_host None
             (Doubles.hkcu (b "device") Doubles.activation_0003_0007) in
  outcome (retrieve_key_userkey h) = Ok Doubles.wrapped_31A_B
  /\ opens_of activation_path (trace (retrieve_key_userkey h))
     = ["0000"; "0001"; "0002"; "0003"]%string
  /\ opens_of (activation_path ++ ["0003"%string])
       (trace (retrieve_key_userkey h))
     = ["0000"; "0001"; "0002"; "0003"; "0004"; "0005"; "0006";
        "0007"]%string
  /\ ends_with (trace (retrieve_key_userkey h))
       (RegQueryValueEx (activation_path ++ ["0003"; "0007"]%string)
                        (Some "value"%string)).
Proof.
  refine (proj1 (@walk_returns_first_licence_key
            (Doubles.windows_host None
               (Doubles.hkcu (b "device") Doubles.activation_0003_0007))
            Doubles.activation_0003_0007 _)
            3 7 Doubles.wrapped_31A_B _).
  - vm_compute. reflexivity.
  - vm_compute. reflexivity.
Defined.

(** C10: a credentials node without a licence-key leaf among its
    enumerated children does not end the walk: the later children of the
    activation key are tried in index order, and the licence key found
    under a later credentials node is returned. *)
Theorem walk_continues_after_barren_credentials (h : Host)
    (root nd0 : RegKey) (i0 i j : nat) (v : str) :
  open_path (HKEY_CURRENT_USER h) activation_path = Some root ->
  i0 < i ->
  subkey root i0 = Some nd0 ->
  tagged nd0 "credentials" = true ->
  no_licence_key nd0 = true ->
  first_licence_key root i j v = true ->
  let m := retrieve_key_userkey h in
  outcome m = Ok v
  /\ opens_of activation_path (trace m) = map fmt04d (seq 0 (S i))
  /\ In (RegOpenKey activation_path (fmt04d (S i0))) (trace m)
  /\ exists nd, subkey root i = Some nd /\ tagged nd "credentials" = true.
Proof.
  intros Hopen Hlt Hnd0 Hcred0 Hbarren Hfirst m.
  destruct (@retrieve_key_userkey_found h root i j v Hopen Hfirst)
    as [Hout [Hop _]].
  split; [exact Hout|]. split; [exact Hop|]. split.
  - apply opens_of_In. fold m in Hop. rewrite Hop.
    apply in_map, in_seq. lia.
  - apply first_inv in Hfirst as [_ [_ [nd [Hnd [Hcred _]]]]].
    now exists nd.
Qed.

Lemma walk_continues_after_barren_credentials_witness :
  let h := Doubles.windows_host None
             (Doubles.hkcu (b "device") Doubles.activation_barren_first) in
  outcome (retrieve_key_userkey h) = Ok Doubles.wrapped_32A
  /\ opens_of activation_path (trace (retrieve_key_userkey h))
     = ["0000"; "0001"; "0002"]%string
  /\ In (RegOpenKey activation_path "0001") (trace (retrieve_key_userkey h))
  /\ exists nd, subkey Doubles.activation_barren_first 2 = Some nd
                /\ tagged nd "credentials" = true.
Proof.
  refine (@walk_continues_after_barren_credentials
            (Doubles.windows_host None
               (Doubles.hkcu (b "device") Doubles.activation_barren_first))
            Doubles.activation_barren_first
            (Doubles.node "credentials" [Doubles.leaf "user" (b "urn:uuid:0")])
            0 2 1 Doubles.wrapped_32A _ _ _ _ _ _).
  - vm_compute. reflexivity.
  - lia.
  - vm_compute. reflexivity.
  - vm_compute. reflexivity.
  - vm_compute. reflexivity.
  - vm_compute. reflexivity.
Defined.

Lemma trace_retrieve_key_userkey (h : Host) (root : RegKey) :
  open_path (HKEY_CURRENT_USER h) activation_path = Some root ->
  trace (retrieve_key_userkey h)
  = RegOpenKey [] PRIVATE_LICENCE_KEY_PATH
    :: fst (scan_plkroot (activation_handle root) (seq 0 16) None).
Proof.
  intros Hopen. rewrite (retrieve_key_userkey_open h Hopen).
  unfold trace, prepend. cbn [fst app]. now rewrite trace_insist.
Qed.

Lemma retrieve_key_userkey_none (h : Host) (root : RegKey) :
  open_path (HKEY_CURRENT_USER h) activation_path = Some root ->
  no_first_licence_key root = true ->
  outcome (retrieve_key_userkey h)
  = Raise (ADEPTError "Could not locate privateLicenseKey")
  /\ opens_of activation_path (trace (retrieve_key_userkey h))
     = map fmt04d (seq 0 (Nat.min 16 (S (enumerated root)))).
Proof.
  intros Hopen Hnone.
  destruct (@scan_plkroot_none (activation_handle root) 16 0 eq_refl Hnone)
    as [tr [Htr Hop]].
  rewrite (trace_retrieve_key_userkey h Hopen).
  rewrite (retrieve_key_userkey_open h Hopen), Htr.
  unfold outcome, prepend, insist. cbn [fst snd].
  split; [reflexivity|].
  rewrite opens_of_after_root by apply activation_path_not_nil.
  exact Hop.
Qed.

Lemma retrieve_key_userkey_none_under (h : Host) (root : RegKey) (i : nat) :
  open_path (HKEY_CURRENT_USER h) activation_path = Some root ->
  no_first_licence_key root = true ->
  i < 16 ->
  opens_of (activation_path ++ [fmt04d i]) (trace (retrieve_key_userkey h))
  = tried_under root i.
Proof.
  intros Hopen Hnone Hi.
  rewrite (trace_retrieve_key_userkey h Hopen).
  rewrite opens_of_after_root by apply activation_child_not_nil.
  pose proof (@scan_plkroot_none_under (activation_handle root) 16 0 eq_refl
                Hnone i Hi) as Hunder.
  cbn [activation_handle hpath hnode] in Hunder.
  etransitivity; [exact Hunder|].
  unfold tried_under, enumerated. cbn [Nat.leb andb Nat.add]. reflexivity.
Qed.

Lemma retrieve_key_userkey_empty (h : Host) (root : RegKey) :
  open_path (HKEY_CURRENT_USER h) activation_path = Some root ->
  subkeys root = [] ->
  retrieve_key_userkey h
  = ([RegOpenKey [] PRIVATE_LICENCE_KEY_PATH;
      RegOpenKey activation_path "0000"],
     Raise (ADEPTError "Could not locate privateLicenseKey")).
Proof.
  intros Hopen Hempty. rewrite (retrieve_key_userkey_open h Hopen).
  change (seq 0 16) with (0 :: seq 1 15).
  rewrite scan_plkroot_cons by lia.
  unfold subkey. cbn [activation_handle hnode hpath]. rewrite Hempty.
  reflexivity.
Qed.

(** C5: at each of the two depths the children are tried under the names
    "0000" to "0015", in ascending order from "0000", sixteen at most, and
    never past the first name that cannot be opened; when the enumeration
    reaches no leaf tagged [privateLicenseKey] the walk fails with the
    module's error after it has gone through both levels: under the
    activation key, and under each credentials node it holds, every name
    up to and including the first that cannot be opened has been tried,
    and nothing has been tried under the other nodes; the walk fails as
    well when the activation key itself cannot be opened; under an
    activation key without children the only child tried is "0000". *)
Theorem walk_enumeration_and_failure (h : Host) :
  let m := retrieve_key_userkey h in
  map fmt04d (xrange 0 16)
  = ["0000"; "0001"; "0002"; "0003"; "0004"; "0005"; "0006"; "0007";
     "0008"; "0009"; "0010"; "0011"; "0012"; "0013"; "0014";
     "0015"]%string
  /\ (open_path (HKEY_CURRENT_USER h) activation_path = None ->
      m = ([RegOpenKey [] PRIVATE_LICENCE_KEY_PATH],
           Raise (ADEPTError "Could not locate ADE activation")))
  /\ forall root,
       open_path (HKEY_CURRENT_USER h) activation_path = Some root ->
       (exists n, n <= 16 /\ n <= S (enumerated root)
          /\ opens_of activation_path (trace m) = map fmt04d (seq 0 n))
       /\ (forall i, i < 16 ->
             exists n, n <= 16
               /\ (forall nd, subkey root i = Some nd -> n <= S (enumerated nd))
               /\ opens_of (activation_path ++ [fmt04d i]) (trace m)
                  = map fmt04d (seq 0 n))
       /\ (no_first_licence_key root = true ->
             outcome m = Raise (ADEPTError "Could not locate privateLicenseKey")
             /\ opens_of activation_path (trace m)
                = map fmt04d (seq 0 (Nat.min 16 (S (enumerated root))))
             /\ forall i, i < 16 ->
                  opens_of (activation_path ++ [fmt04d i]) (trace m)
                  = tried_under root i)
       /\ (subkeys root = [] ->
             m = ([RegOpenKey [] PRIVATE_LICENCE_KEY_PATH;
                   RegOpenKey activation_path "0000"],
                  Raise (ADEPTError "Could not locate privateLicenseKey"))).
Proof.
  intros m. split; [reflexivity|]. split.
  - apply retrieve_key_userkey_closed.
  - intros root Hopen.
    pose proof (@scan_plkroot_opens (activation_handle root) 16 0 eq_refl)
      as [[n [Hn HA]] [_ HC]].
    cbn [activation_handle hnode hpath] in Hn, HA, HC.
    split; [|split; [|split]].
    + exists n. split; [lia|]. split; [unfold enumerated; lia|].
      subst m. rewrite (trace_retrieve_key_userkey h Hopen).
      rewrite opens_of_after_root by apply activation_path_not_nil.
      exact HA.
    + intros i Hi. destruct (HC i ltac:(lia)) as [k [Hk [Hbound Hop]]].
      exists k. split; [exact Hk|]. split; [exact Hbound|].
      subst m. rewrite (trace_retrieve_key_userkey h Hopen).
      rewrite opens_of_after_root by apply activation_child_not_nil.
      exact Hop.
    + intros Hnone.
      destruct (retrieve_key_userkey_none h Hopen Hnone) as [Hout Hop].
      split; [exact Hout|]. split; [exact Hop|].
      intros i Hi. now apply retrieve_key_userkey_none_under.
    + now apply retrieve_key_userkey_empty.
Qed.

(** A registry whose only credentials node, "0001", holds two leaves and
    no licence key; an activation key without children; a registry
    without the activation key. *)
Lemma walk_enumeration_and_failure_witness :
  let h := Doubles.windows_host None
             (Doubles.hkcu (b "device") Doubles.activation_barren_only) in
  (outcome (retrieve_key_userkey h)
   = Raise (ADEPTError "Could not locate privateLicenseKey")
   /\ opens_of activation_path (trace (retrieve_key_userkey h))
      = ["0000"; "0001"; "0002"; "0003"]%string
   /\ opens_of (activation_path ++ [fmt04d 1]) (trace (retrieve_key_userkey h))
      = ["0000"; "0001"; "0002"]%string
   /\ opens_of (activation_path ++ [fmt04d 0]) (trace (retrieve_key_userkey h))
      = [])
  /\ retrieve_key_userkey
       (Doubles.windows_host None
          (Doubles.hkcu (b "device") Doubles.activation_empty))
     = ([RegOpenKey [] PRIVATE_LICENCE_KEY_PATH;
         RegOpenKey activation_path "0000"],
        Raise (ADEPTError "Could not locate privateLicenseKey"))
  /\ retrieve_key_userkey (Doubles.windows_host None Doubles.empty_registry)
     = ([RegOpenKey [] PRIVATE_LICENCE_KEY_PATH],
        Raise (ADEPTError "Could not locate ADE activation")).
Proof.
  split; [|split].
  - assert (Hopen : open_path
                      (HKEY_CURRENT_USER
                         (Doubles.windows_host None
                            (Doubles.hkcu (b "device")
                               Doubles.activation_barren_only)))
                      activation_path
                    = Some Doubles.activation_barren_only)
      by (vm_compute; reflexivity).
    assert (Hnone : no_first_licence_key Doubles.activation_barren_only = true)
      by (vm_compute; reflexivity).
    destruct (proj1 (proj2 (proj2 (proj2 (proj2
               (@walk_enumeration_and_failure
                  (Doubles.windows_host None
                     (Doubles.hkcu (b "device")
                        Doubles.activation_barren_only))))
               Doubles.activation_barren_only Hopen))) Hnone)
      as [Hout [Hop Hunder]].
    split; [exact Hout|]. split; [exact Hop|]. split.
    + etransitivity; [apply Hunder; lia|]. vm_compute. reflexivity.
    + etransitivity; [apply Hunder; lia|]. vm_compute. reflexivity.
  - refine (proj2 (proj2 (proj2 (proj2 (proj2
             (@walk_enumeration_and_failure
                (Doubles.windows_host None
                   (Doubles.hkcu (b "device") Doubles.activation_empty))))
             Doubles.activation_empty _))) _).
    + vm_compute. reflexivity.
    + reflexivity.
  - refine (proj1 (proj2 (@walk_enumeration_and_failure
              (Doubles.windows_host None Doubles.empty_registry))) _).
    vm_compute. reflexivity.
Defined.

End WalkFacts.

(* ================================================================== *)
(** * Recovery from the activation record (lines 273-283) *)
(* ================================================================== *)

Module RecordFacts.
Import Py Effects Mac Described PyFacts.

(** Induction over an element and, with it, over all its children. *)
Lemma Element_children_ind (P : Element -> Prop) :
  (forall t x cs, Forall P cs -> P (Elem t x cs)) ->
  forall e, P e.
Proof.
  intros step. fix IH 1. intros [t x cs]. apply step.
  induction cs as [|c cs IHcs]; constructor.
  - apply IH.
  - exact IHcs.
Qed.

Lemma iter_eq (t : string) (e : Element) :
  iter t e
  = (if String.eqb (tag e) t then [e] else [])
    ++ flat_map (iter t) (children e).
Proof. destruct e. reflexivity. Qed.

Lemma In_iter_self (t : string) (e : Element) :
  tag e = t -> In e (iter t e).
Proof.
  intros <-. rewrite iter_eq, String.eqb_refl. now left.
Qed.

Lemma In_iter_below (t : string) (e x : Element) :
  below e x -> tag x = t -> In x (iter t e).
Proof.
  intros Hb Ht. induction Hb as [root e Hin|root c e Hin Hb IH].
  - rewrite iter_eq. apply in_or_app. right.
    apply in_flat_map. exists e. split; [exact Hin|].
    now apply In_iter_self.
  - rewrite iter_eq. apply in_or_app. right.
    apply in_flat_map. exists c. split; [exact Hin|]. now apply IH.
Qed.

Lemma In_iter_inv (t : string) (e x : Element) :
  In x (iter t e) -> (x = e \/ below e x) /\ tag x = t.
Proof.
  revert x. induction e as [tg tx cs IH] using Element_children_ind.
  intros x Hin. rewrite iter_eq in Hin. cbn [tag children] in Hin.
  apply in_app_or in Hin as [Hself|Hdeep].
  - destruct (String.eqb tg t) eqn:Heq; [|contradiction].
    destruct Hself as [<-|[]]. split; [now left|].
    now apply String.eqb_eq.
  - apply in_flat_map in Hdeep as [c [Hc Hx]].
    rewrite Forall_forall in IH.
    destruct (IH c Hc x Hx) as [[->|Hb] Ht]; split; try exact Ht; right.
    + now apply below_child.
    + now apply below_deeper with (c := c).
Qed.

Lemma findall_expr (root : Element) :
  findall root expr
  = flat_map (fun c => filter (fun e => String.eqb (tag e)
                                          (adept "privateLicenseKey"))
                              (children c))
      (flat_map (iter (adept "credentials")) (children root)).
Proof.
  unfold findall, expr. cbn [fold_left select flat_map].
  now rewrite app_nil_r.
Qed.

(** The path expression selects exactly the elements at the licence-key
    path. *)
Lemma In_findall (root e : Element) :
  In e (findall root expr) <-> at_licence_key_path root e.
Proof.
  rewrite findall_expr, in_flat_map. split.
  - intros [c [Hc He]]. apply filter_In in He as [He Ht].
    apply String.eqb_eq in Ht.
    apply in_flat_map in Hc as [k [Hk Hc]].
    apply In_iter_inv in Hc as [Hc Hct].
    exists c. split; [|auto].
    destruct Hc as [->|Hb].
    + now apply below_child.
    + now apply below_deeper with (c := k).
  - intros [c [Hb [Hct [He Ht]]]]. exists c. split.
    + inversion Hb as [x Hin|k x Hin Hbk]; subst.
      * apply in_flat_map. exists c. split; [exact Hin|].
        now apply In_iter_self.
      * apply in_flat_map. exists k. split; [exact Hin|].
        now apply In_iter_below.
    + apply filter_In. split; [exact He|]. now apply String.eqb_eq.
Qed.

Lemma findtext_present (root : Element) (T : str) :
  (exists e, at_licence_key_path root e) ->
  (forall e, at_licence_key_path root e -> element_text e = T) ->
  findtext root expr = Some T.
Proof.
  intros [e He] Hall. unfold findtext.
  apply In_findall in He.
  destruct (findall root expr) as [|e0 rest] eqn:Hf; [contradiction|].
  f_equal. apply Hall. apply In_findall. rewrite Hf. now left.
Qed.

Lemma findtext_absent (root : Element) :
  (forall e, ~ at_licence_key_path root e) ->
  findtext root expr = None.
Proof.
  intros Hnone. unfold findtext.
  destruct (findall root expr) as [|e0 rest] eqn:Hf; [reflexivity|].
  exfalso. apply (Hnone e0). apply In_findall. rewrite Hf. now left.
Qed.

(** The function once the activation record has been located. *)
Lemma retrieve_key_located (h : Host) (actpath : string) :
  outcome (find_app_support_file h ACTIVATION_PATH) = Ok (Some actpath) ->
  outcome (retrieve_key h)
  = match parse h actpath with
    | None => Raise ParseError
    | Some tree =>
        match decode_base64 h (findtext tree expr) with
        | Ok userkey => Ok (slice userkey (Some 26%Z) None)
        | Raise e => Raise e
        end
    end.
Proof.
  unfold retrieve_key, outcome.
  destruct (find_app_support_file h ACTIVATION_PATH) as [tr r].
  cbn [snd]. intros ->. unfold bind, tell, lift, ret.
  destruct (parse h actpath) as [tree|]; [|reflexivity].
  destruct (decode_base64 h (findtext tree expr)); reflexivity.
Qed.

Lemma retrieve_key_not_located (h : Host) :
  outcome (find_app_support_file h ACTIVATION_PATH) = Ok None ->
  outcome (retrieve_key h) = Raise (ADEPTError "Could not locate ADE activation").
Proof.
  unfold retrieve_key, outcome.
  destruct (find_app_support_file h ACTIVATION_PATH) as [tr r].
  cbn [snd]. intros ->. reflexivity.
Qed.

(** C6, as amended: when the activation record holds, below its root
    element, a credentials element with a privateLicenseKey child (adept
    namespace), and every such child carries the same text T (as when
    there is only one), recovery returns the base64 decoding of T without
    its first 26 bytes; nothing is removed at the end. *)
Theorem retrieve_key_from_record (h : Host) (actpath : string)
    (record : Element) (T data : str) :
  outcome (find_app_support_file h ACTIVATION_PATH) = Ok (Some actpath) ->
  parse h actpath = Some record ->
  (exists e, at_licence_key_path record e) ->
  (forall e, at_licence_key_path record e -> element_text e = T) ->
  base64_decode h T = Some data ->
  outcome (retrieve_key h) = Ok (skipn 26 data)
  /\ data = firstn 26 data ++ skipn 26 data.
Proof.
  intros Hloc Hparse Hex Hall Hdec. split.
  - rewrite (retrieve_key_located h Hloc), Hparse.
    rewrite (findtext_present Hex Hall).
    unfold decode_base64. rewrite Hdec. f_equal.
    apply (slice_from data 26).
  - symmetry. apply firstn_skipn.
Qed.

Lemma retrieve_key_from_record_witness :
  outcome (retrieve_key (Doubles.mac_host Doubles.record_with_key))
  = Ok (b "AAAAAA").
Proof.
  refine (proj1 (@retrieve_key_from_record
            (Doubles.mac_host Doubles.record_with_key)
            (path_join Doubles.support_folder ACTIVATION_PATH)
            Doubles.record_with_key Doubles.wrapped_32A
            (repeat "A"%char 32) _ _ _ _ _)).
  - vm_compute. reflexivity.
  - reflexivity.
  - exists (Doubles.licence_key_element Doubles.wrapped_32A).
    apply In_findall. vm_compute. now left.
  - intros e He. apply In_findall in He. vm_compute in He.
    destruct He as [<-|[]]. reflexivity.
  - vm_compute. reflexivity.
Defined.

(** The fragment of the description as the whole document: the text is
    at the path, the codec accepts it, and the function ends in an
    [AttributeError]. *)
Lemma retrieve_key_rooted_at_credentials_counterexample :
  let record := Doubles.record_rooted_at_credentials in
  let h := Doubles.mac_host record in
  tag record = adept "credentials"
  /\ In (Doubles.licence_key_element Doubles.wrapped_32A) (children record)
  /\ base64_decode h Doubles.wrapped_32A = Some (repeat "A"%char 32)
  /\ outcome (retrieve_key h) = Raise AttributeError
  /\ outcome (retrieve_key h) <> Ok (skipn 26 (repeat "A"%char 32)).
Proof.
  cbv zeta. split; [reflexivity|]. split; [now left|].
  split; [vm_compute; reflexivity|].
  assert (H : outcome (retrieve_key
                (Doubles.mac_host Doubles.record_rooted_at_credentials))
              = Raise AttributeError) by (vm_compute; reflexivity).
  split; [exact H|]. rewrite H. discriminate.
Qed.

(** Without an element at the path, [findtext] gives [None] and the call
    of [decode] on it raises. *)
Lemma retrieve_key_missing_element (h : Host) (actpath : string)
    (record : Element) :
  outcome (find_app_support_file h ACTIVATION_PATH) = Ok (Some actpath) ->
  parse h actpath = Some record ->
  (forall e, ~ at_licence_key_path record e) ->
  outcome (retrieve_key h) = Raise AttributeError.
Proof.
  intros Hloc Hparse Hnone.
  rewrite (retrieve_key_located h Hloc), Hparse.
  now rewrite (findtext_absent Hnone).
Qed.

(** C7: on a record without a privateLicenseKey element the function
    raises [AttributeError], which is not the module's error. *)
Theorem retrieve_key_record_without_key :
  let h := Doubles.mac_host Doubles.record_without_key in
  (forall e, ~ at_licence_key_path Doubles.record_without_key e)
  /\ outcome (retrieve_key h) = Raise AttributeError
  /\ ~ is_ADEPTError (outcome (retrieve_key h)).
Proof.
  cbv zeta.
  assert (Hnone : forall e,
            ~ at_licence_key_path Doubles.record_without_key e).
  { intros e He. apply In_findall in He. vm_compute in He. exact He. }
  assert (H : outcome (retrieve_key
                (Doubles.mac_host Doubles.record_without_key))
              = Raise AttributeError).
  { apply retrieve_key_missing_element
      with (actpath := path_join Doubles.support_folder ACTIVATION_PATH)
           (record := Doubles.record_without_key).
    - vm_compute. reflexivity.
    - reflexivity.
    - exact Hnone. }
  split; [exact Hnone|]. split; [exact H|].
  rewrite H. intros [msg Hmsg]. discriminate.
Qed.

End RecordFacts.

(* ================================================================== *)
(** * How [retrieve_key] fails *)
(* ================================================================== *)

Module FailureFacts.
Import Py Effects Described PyFacts.

Section WindowsFailures.
Import Windows.

Lemma OpenKey_outcome (key : HKEY) (sub : string) (e : exn) :
  outcome (OpenKey key sub) = Raise e -> e = WindowsError.
Proof.
  unfold OpenKey, outcome, bind, tell.
  destruct (open_path (hnode key) (split backslash sub));
    cbn; congruence.
Qed.

Lemma QueryValueEx_outcome (key : HKEY) (name : option string) (e : exn) :
  outcome (QueryValueEx key name) = Raise e -> e = WindowsError.
Proof.
  unfold QueryValueEx, outcome, bind, tell.
  destruct (assoc _ (values (hnode key))); cbn; congruence.
Qed.

Lemma bind_outcome (A B : Type) (m : M A) (f : A -> M B) (e : exn) :
  outcome (bind m f) = Raise e ->
  outcome m = Raise e \/ exists a, outcome m = Ok a /\ outcome (f a) = Raise e.
Proof.
  unfold bind, outcome. destruct m as [l [a|e']]; cbn [snd].
  - destruct (f a) as [l' r] eqn:Hf. cbn [snd]. intros ->.
    right. exists a. split; [reflexivity|]. now rewrite Hf.
  - intros H. left. injection H as ->. reflexivity.
Qed.

Lemma except_outcome (A : Type) (m : M A) (e : exn) :
  outcome (except_WindowsError m) = Raise e ->
  outcome m = Raise e /\ e <> WindowsError.
Proof.
  unfold except_WindowsError, outcome. destruct m as [l [a|e']]; cbn [snd].
  - discriminate.
  - destruct e'; cbn [snd]; intros H; try discriminate;
      injection H as <-; split; congruence.
Qed.

Lemma scan_plkparent_outcome (P : HKEY) (rest : list nat)
    (uk : option str) (e : exn) :
  outcome (scan_plkparent P rest uk) = Raise e -> e = WindowsError.
Proof.
  induction rest as [|j rest IH]; cbn [scan_plkparent]; intros H.
  - discriminate.
  - apply bind_outcome in H as [H|[[plkkey|] [_ H]]].
    + apply except_outcome in H as [H Hne].
      now apply OpenKey_outcome in H.
    + apply bind_outcome in H as [H|[ktype [_ H]]].
      * now apply QueryValueEx_outcome in H.
      * destruct (negb (str_eqb ktype (b "privateLicenseKey"))).
        -- now apply IH.
        -- apply bind_outcome in H as [H|[v [_ H]]]; [|discriminate].
           now apply QueryValueEx_outcome in H.
    + discriminate.
Qed.

Lemma scan_plkroot_outcome (R : HKEY) (rest : list nat)
    (uk : option str) (e : exn) :
  outcome (scan_plkroot R rest uk) = Raise e -> e = WindowsError.
Proof.
  revert uk. induction rest as [|i rest IH]; cbn [scan_plkroot]; intros uk H.
  - discriminate.
  - apply bind_outcome in H as [H|[[plkparent|] [_ H]]].
    + apply except_outcome in H as [H Hne].
      now apply OpenKey_outcome in H.
    + apply bind_outcome in H as [H|[ktype [_ H]]].
      * now apply QueryValueEx_outcome in H.
      * destruct (negb (str_eqb ktype (b "credentials"))).
        -- now apply IH in H.
        -- apply bind_outcome in H as [H|[[v|] [_ H]]].
           ++ now apply scan_plkparent_outcome in H.
           ++ discriminate.
           ++ now apply IH in H.
    + discriminate.
Qed.

Lemma retrieve_key_userkey_outcome (h : Host) (e : exn) :
  outcome (retrieve_key_userkey h) = Raise e ->
  e = ADEPTError "Could not locate ADE activation"
  \/ e = ADEPTError "Could not locate privateLicenseKey"
  \/ e = WindowsError.
Proof.
  unfold retrieve_key_userkey. intros H.
  apply bind_outcome in H as [H|[[plkroot|] [_ H]]].
  - apply except_outcome in H as [H Hne].
    apply OpenKey_outcome in H. contradiction.
  - apply bind_outcome in H as [H|[[v|] [_ H]]].
    + right. right. now apply scan_plkroot_outcome in H.
    + discriminate.
    + right. left. unfold outcome, raise in H. cbn in H. congruence.
  - left. unfold outcome, raise in H. cbn in H. congruence.
Qed.

Lemma retrieve_key_unwrap_outcome (h : Host) (aes : AES)
    (keykey userkey : str) (e : exn) :
  outcome (retrieve_key_unwrap h aes keykey userkey) = Raise e ->
  e = binascii_Error \/ e = ValueError \/ e = IndexError.
Proof.
  unfold retrieve_key_unwrap. intros H.
  apply bind_outcome in H as [H|[data [_ H]]].
  - left. unfold decode_base64, lift, outcome in H.
    destruct (base64_decode h userkey); cbn in H; congruence.
  - apply bind_outcome in H as [H|[plain [_ H]]].
    + right. left. unfold new_CBC_decrypt in H.
      apply bind_outcome in H as [H|[u [_ H]]]; [discriminate|].
      destruct (valid_key_length _);
        [destruct (Nat.eqb _ 0)|]; cbn in H; congruence.
    + right. right. unfold lift, outcome, depad in H. cbn [snd] in H.
      unfold getitem in H.
      destruct (_ || _); [cbn in H; congruence|].
      destruct (nth_error plain _); cbn in H; congruence.
Qed.

Lemma retrieve_key_entropy_outcome (h : Host) (e : exn) :
  outcome (retrieve_key_entropy h) <> Raise e.
Proof.
  rewrite EntropyFacts.retrieve_key_entropy_eq. discriminate.
Qed.

Lemma retrieve_key_messages (h : Host) (msg : string) :
  outcome (retrieve_key h) = Raise (ADEPTError msg) ->
  In msg ["Couldn't load PyCrypto";
          "Adobe Digital Editions not activated";
          "Failed to decrypt user key key (sic)";
          "Could not locate ADE activation";
          "Could not locate privateLicenseKey"]%string.
Proof.
  unfold retrieve_key. destruct (_aes h) as [aes|].
  - intros H. apply bind_outcome in H as [H|[entropy [_ H]]].
    { exfalso. eapply retrieve_key_entropy_outcome. exact H. }
    apply bind_outcome in H as [H|[[regkey|] [_ H]]].
    + apply except_outcome in H as [H Hne].
      apply OpenKey_outcome in H. congruence.
    + apply bind_outcome in H as [H|[device [_ H]]].
      { apply QueryValueEx_outcome in H. discriminate. }
      apply bind_outcome in H as [H|[keykey [_ H]]].
      { unfold CryptUnprotectData in H.
        apply bind_outcome in H as [H|[u [_ H]]]; [discriminate|].
        destruct (crypt32_CryptUnprotectData h device entropy);
          cbn in H; [discriminate|].
        injection H as <-. cbn. auto 10. }
      apply bind_outcome in H as [H|[userkey [_ H]]].
      { apply retrieve_key_userkey_outcome in H as [H|[H|H]];
          try discriminate; injection H as <-; cbn; auto 10. }
      apply retrieve_key_unwrap_outcome in H as [H|[H|H]]; discriminate.
    + unfold outcome, raise in H. cbn in H. injection H as <-. cbn. auto 10.
  - unfold outcome, raise. cbn. intros H. injection H as <-. auto 10.
Qed.

End WindowsFailures.

Section MacFailures.
Import Mac.

Lemma find_app_support_file_in_outcome (h : Host) (domains : list Z)
    (subpath : string) :
  exists r, outcome (find_app_support_file_in h domains subpath) = Ok r.
Proof.
  induction domains as [|d ds [r IH]]; cbn [find_app_support_file_in].
  - now exists None.
  - unfold find_folder, bind, tell, ret, outcome in *.
    cbn [app fst snd].
    destruct (FSFindFolder h d) as [path|].
    + destruct (isfile h (path_join path subpath)).
      * eexists. reflexivity.
      * destruct (find_app_support_file_in h ds subpath) as [l r'].
        cbn [snd] in *. exists r. exact IH.
    + destruct (find_app_support_file_in h ds subpath) as [l r'].
      cbn [snd] in *. exists r. exact IH.
Qed.

Lemma mac_retrieve_key_messages (h : Host) (msg : string) :
  outcome (retrieve_key h) = Raise (ADEPTError msg) ->
  msg = "Could not locate ADE activation"%string.
Proof.
  destruct (find_app_support_file_in_outcome h [kUserDomain; kLocalDomain]
              ACTIVATION_PATH) as [[actpath|] Hloc].
  - rewrite (RecordFacts.retrieve_key_located h Hloc).
    destruct (parse h actpath) as [tree|]; [|discriminate].
    unfold decode_base64.
    destruct (findtext tree expr) as [t|]; [|discriminate].
    destruct (base64_decode h t); discriminate.
  - rewrite (RecordFacts.retrieve_key_not_located h Hloc). congruence.
Qed.

End MacFailures.

End FailureFacts.

(* ================================================================== *)
(** * The identity of the machine and of the user (lines 40-77, 119-170) *)
(* ================================================================== *)

Module IdentityFacts.
Import Py Effects Windows Described Observed PyFacts.

Lemma GetUserName_sizes_spec (need : nat) :
  forall fuel k0,
  (need <= 32 * 2 ^ (k0 + fuel))%nat ->
  exists n, (k0 <= n)%nat
    /\ GetUserName_sizes fuel need (32 * 2 ^ k0)
       = map (fun k => (32 * 2 ^ k)%nat) (seq k0 (S n - k0))
    /\ (need <= 32 * 2 ^ n)%nat
    /\ (forall k, (k0 <= k < n)%nat -> (32 * 2 ^ k < need)%nat).
Proof.
  induction fuel as [|fuel IH]; intros k0 Hneed.
  - exists k0. rewrite Nat.add_0_r in Hneed.
    replace (S k0 - k0)%nat with 1%nat by lia. cbn [GetUserName_sizes seq map].
    repeat split; lia.
  - cbn [GetUserName_sizes].
    destruct (Nat.leb need (32 * 2 ^ k0)) eqn:Hfit.
    + apply Nat.leb_le in Hfit. exists k0.
      replace (S k0 - k0)%nat with 1%nat by lia. cbn [seq map].
      repeat split; lia.
    + apply Nat.leb_gt in Hfit.
      replace (2 * (32 * 2 ^ k0))%nat with (32 * 2 ^ S k0)%nat
        by (rewrite Nat.pow_succ_r'; lia).
      destruct (IH (S k0)) as [n [Hn [Heq [Hlast Hbefore]]]].
      { replace (S k0 + fuel)%nat with (k0 + S fuel)%nat by lia. exact Hneed. }
      exists n. split; [lia|]. split; [|split].
      * rewrite Heq. replace (S n - k0)%nat with (S (S n - S k0)) by lia.
        reflexivity.
      * exact Hlast.
      * intros k Hk. destruct (Nat.eq_dec k k0) as [->|Hne]; [exact Hfit|].
        apply Hbefore. lia.
Qed.

(** X1: [GetUserName] asks with a buffer of 32 characters and doubles it
    until the name and its terminator fit; it always comes to an end, and
    the last buffer is the first of 32, 64, 128, ... that is longer than
    the name. *)
Theorem GetUserName_buffer (h : Host) :
  exists n,
    trace (GetUserName h) = map CallGetUserNameW (doubled_sizes n)
    /\ (List.length (UserName h) < 32 * 2 ^ n)%nat
    /\ (forall k, (k < n)%nat -> (32 * 2 ^ k <= List.length (UserName h))%nat).
Proof.
  destruct (@GetUserName_sizes_spec (S (List.length (UserName h)))
              (List.length (UserName h)) 0) as [n [_ [Heq [Hlast Hbefore]]]].
  { cbn [Nat.add].
    pose proof (Nat.pow_gt_lin_r 2 (List.length (UserName h)) ltac:(lia)).
    lia. }
  exists n. unfold GetUserName, trace, doubled_sizes. cbn [fst].
  change (32 * 2 ^ 0)%nat with 32%nat in Heq. rewrite Heq, Nat.sub_0_r.
  split; [reflexivity|]. split; [lia|].
  intros k Hk. specialize (Hbefore k ltac:(lia)). lia.
Qed.

Lemma map_mod_small (l : list Z) :
  Forall (fun c => 0 <= c < 256) l -> map (fun c => c mod 256) l = l.
Proof.
  induction 1 as [|c l Hc Hl IH]; [reflexivity|].
  cbn [map]. rewrite IH. f_equal. now apply Z.mod_small.
Qed.

(** X2: the user name comes back with one byte per UTF-16 code unit, the
    code unit modulo 256; a name whose code units are all below 256 comes
    back unchanged. *)
Theorem GetUserName_low_bytes (h : Host) :
  exists user,
    outcome (GetUserName h) = Ok user
    /\ List.length user = List.length (UserName h)
    /\ map ord user = map (fun c => c mod 256) (UserName h)
    /\ (Forall (fun c => 0 <= c < 256) (UserName h) ->
        map ord user = UserName h).
Proof.
  exists (map chr (UserName h)). unfold GetUserName, outcome. cbn [snd].
  rewrite stride2_utf16le. split; [reflexivity|].
  split; [apply length_map|].
  assert (Hlow : map ord (map chr (UserName h))
                 = map (fun c => c mod 256) (UserName h)).
  { rewrite map_map. apply map_ext. intros c. apply ord_chr. }
  split; [exact Hlow|].
  intros Hall. rewrite Hlow. now apply map_mod_small.
Qed.

Lemma chr_mod (c : Z) : chr (c mod 256) = chr c.
Proof. unfold chr. now rewrite Z.mod_mod by lia. Qed.

Lemma pack_s_firstn (n : nat) (s : str) :
  pack_s n s
  = firstn n s ++ repeat zero (n - List.length (firstn n s)).
Proof.
  unfold pack_s. f_equal. f_equal. rewrite length_firstn. lia.
Qed.

(** X3: of the user name, only the low bytes of the first thirteen UTF-16
    code units reach the entropy: two hosts that agree on the volume
    serial, on both processor answers and on those bytes get the same
    entropy. *)
Theorem entropy_user_name_low_bytes (h1 h2 : Host) :
  VolumeSerialNumber h1 (system_root h1)
  = VolumeSerialNumber h2 (system_root h2) ->
  cpuid h1 0 = cpuid h2 0 ->
  cpuid h1 1 = cpuid h2 1 ->
  map (fun c => c mod 256) (firstn 13 (UserName h1))
  = map (fun c => c mod 256) (firstn 13 (UserName h2)) ->
  outcome (retrieve_key_entropy h1) = outcome (retrieve_key_entropy h2).
Proof.
  intros Hserial H0 H1 Hname.
  rewrite !EntropyFacts.retrieve_key_entropy_eq. unfold outcome. cbn [snd].
  unfold volume_serial, vendor_signature, feature_value.
  rewrite Hserial, H0, H1. do 4 f_equal.
  unfold user_name. rewrite (pack_s_firstn 13 (map chr (UserName h1))).
  rewrite (pack_s_firstn 13 (map chr (UserName h2))).
  rewrite !firstn_map.
  assert (Hchr : map chr (firstn 13 (UserName h1))
                 = map chr (firstn 13 (UserName h2))).
  { apply (f_equal (map chr)) in Hname. rewrite !map_map in Hname.
    erewrite map_ext in Hname by (intros c; apply chr_mod).
    symmetry in Hname.
    erewrite map_ext in Hname by (intros c; apply chr_mod).
    now symmetry. }
  now rewrite Hchr.
Qed.

Lemma entropy_user_name_low_bytes_witness :
  outcome (retrieve_key_entropy
             (Doubles.windows_host_named (map ord (b "reader-of-many-books"))))
  = outcome (retrieve_key_entropy
               (Doubles.windows_host_named
                  (map (fun c => ord c + 256) (b "reader-of-man")))).
Proof.
  apply entropy_user_name_low_bytes.
  - reflexivity.
  - reflexivity.
  - reflexivity.
  - vm_compute. reflexivity.
Defined.

Lemma split_hd (s1 s2 : string) :
  backslash_free s1 = true ->
  hd EmptyString (split backslash (String.append s1 (String backslash s2)))
  = s1.
Proof.
  unfold backslash_free. induction s1 as [|c s1 IH]; intros Hfree.
  - cbn [String.append split]. now rewrite Ascii.eqb_refl.
  - cbn [list_ascii_of_string forallb] in Hfree.
    apply andb_true_iff in Hfree as [Hc Hfree].
    apply negb_true_iff in Hc.
    cbn [String.append split]. rewrite Hc.
    specialize (IH Hfree).
    destruct (split backslash (String.append s1 (String backslash s2)))
      as [|x xs]; cbn [hd] in *; now subst.
Qed.

(** X4: the volume whose serial number enters the entropy is the root of
    the system directory: the directory up to its first backslash,
    followed by a backslash. *)
Theorem volume_of_system_directory (h : Host) (drive rest : string) :
  SystemDirectory h = String.append drive (String backslash rest) ->
  backslash_free drive = true ->
  let root := String.append drive (String backslash EmptyString) in
  In (CallGetVolumeInformationW root) (trace (retrieve_key_entropy h))
  /\ exists e, outcome (retrieve_key_entropy h) = Ok e
       /\ be_value (firstn 4 e) = c_uint (VolumeSerialNumber h root).
Proof.
  intros Hdir Hfree root.
  assert (Hroot : system_root h = root).
  { unfold system_root. rewrite Hdir, (@split_hd drive rest Hfree). reflexivity. }
  rewrite EntropyFacts.retrieve_key_entropy_eq.
  unfold trace, outcome, entropy_calls. cbn [fst snd]. rewrite Hroot. split.
  - cbn [app In]. auto.
  - eexists. split; [reflexivity|].
    change (firstn 4 (pack_I_be (volume_serial h) ++ ?x))
      with (pack_I_be (volume_serial h)).
    rewrite be_value_pack_I_be by apply EntropyFacts.c_uint_bounds.
    unfold volume_serial. now rewrite Hroot.
Qed.

Lemma volume_of_system_directory_witness :
  In (CallGetVolumeInformationW "C:\")
     (trace (retrieve_key_entropy
               (Doubles.windows_host None Doubles.empty_registry))).
Proof.
  refine (proj1 (@volume_of_system_directory
            (Doubles.windows_host None Doubles.empty_registry)
            "C:" "Windows\system32" _ _)).
  - reflexivity.
  - reflexivity.
Defined.

Lemma le_value_le32 (z : Z) : le_value (le32 z) = z mod 2 ^ 32.
Proof.
  unfold le_value, le32. cbn [fold_right].
  rewrite !ord_chr, !Z.shiftr_div_pow2 by lia.
  change (2 ^ 24) with (256 * 256 * 256). change (2 ^ 16) with (256 * 256).
  change (2 ^ 8) with 256. change (2 ^ 32) with (256 * 256 * 256 * 256).
  rewrite <- !Z.div_div by lia.
  set (q1 := z / 256). set (q2 := q1 / 256). set (q3 := q2 / 256).
  pose proof (Z.div_mod z 256 ltac:(lia)) as E0. fold q1 in E0.
  pose proof (Z.div_mod q1 256 ltac:(lia)) as E1. fold q2 in E1.
  pose proof (Z.div_mod q2 256 ltac:(lia)) as E2. fold q3 in E2.
  pose proof (Z.div_mod q3 256 ltac:(lia)) as E3.
  pose proof (Z.mod_pos_bound z 256 ltac:(lia)).
  pose proof (Z.mod_pos_bound q1 256 ltac:(lia)).
  pose proof (Z.mod_pos_bound q2 256 ltac:(lia)).
  pose proof (Z.mod_pos_bound q3 256 ltac:(lia)).
  apply Z.mod_unique_pos with (q := q3 / 256); lia.
Qed.

(** X5: the twelve bytes of [cpuid0] are the registers ebx, edx, ecx of
    selector 0, in that order, each as a little-endian 32-bit word. *)
Theorem cpuid0_registers (h : Host) :
  exists vendor,
    cpuid0 h = ([ExecCpuid 0], Ok vendor)
    /\ List.length vendor = 12%nat
    /\ le_value (firstn 4 vendor)
       = snd (fst (fst (cpuid h 0))) mod 2 ^ 32
    /\ le_value (firstn 4 (skipn 4 vendor)) = snd (cpuid h 0) mod 2 ^ 32
    /\ le_value (skipn 8 vendor) = snd (fst (cpuid h 0)) mod 2 ^ 32.
Proof.
  unfold cpuid0. destruct (cpuid h 0) as [[[eax ebx] ecx] edx].
  exists (le32 ebx ++ le32 edx ++ le32 ecx). cbn [fst snd].
  split; [reflexivity|]. split; [reflexivity|].
  split; [|split].
  - change (firstn 4 (le32 ebx ++ ?x)) with (le32 ebx). apply le_value_le32.
  - change (firstn 4 (skipn 4 (le32 ebx ++ le32 edx ++ le32 ecx)))
      with (le32 edx). apply le_value_le32.
  - change (skipn 8 (le32 ebx ++ le32 edx ++ le32 ecx)) with (le32 ecx).
    apply le_value_le32.
Qed.

End IdentityFacts.

(* ================================================================== *)
(** * The stages of [retrieve_key] on Windows (lines 195-241) *)
(* ================================================================== *)

Module StageFacts.
Import Py Effects Windows Described Observed PyFacts Tree.

Lemma bind_trace (A B : Type) (m : M A) (f : A -> M B) :
  fst (bind m f)
  = fst m ++ match snd m with
             | Ok a => fst (f a)
             | Raise _ => []
             end.
Proof.
  unfold bind. destruct m as [l [a|e]]; cbn [fst snd].
  - now destruct (f a).
  - now rewrite app_nil_r.
Qed.

Lemma OpenKey_device (h : Host) :
  OpenKey (cuser h) DEVICE_KEY_PATH
  = ([RegOpenKey [] DEVICE_KEY_PATH],
     match open_path (HKEY_CURRENT_USER h) device_path with
     | Some dev => Ok {| hpath := device_path; hnode := dev |}
     | None => Raise WindowsError
     end).
Proof.
  unfold OpenKey, cuser. cbn [hpath hnode app].
  rewrite WalkFacts.split_DEVICE_KEY_PATH.
  destruct (open_path (HKEY_CURRENT_USER h) device_path); reflexivity.
Qed.

(** The function stage by stage, once the library is there. *)
Lemma retrieve_key_stages (h : Host) (aes : AES) :
  _aes h = Some aes ->
  retrieve_key h
  = prepend (entropy_calls h)
      match open_path (HKEY_CURRENT_USER h) device_path with
      | None =>
          ([RegOpenKey [] DEVICE_KEY_PATH],
           Raise (ADEPTError "Adobe Digital Editions not activated"))
      | Some dev =>
          match assoc "key"%string (values dev) with
          | None => (device_events, Raise WindowsError)
          | Some device =>
              match crypt32_CryptUnprotectData h device (entropy_buffer h) with
              | None =>
                  (device_events ++ [CallCryptUnprotectData],
                   Raise (ADEPTError "Failed to decrypt user key key (sic)"))
              | Some keykey =>
                  prepend (device_events ++ [CallCryptUnprotectData])
                    (bind (retrieve_key_userkey h)
                          (fun userkey =>
                             retrieve_key_unwrap h aes keykey userkey))
              end
          end
      end.
Proof.
  intros Haes. unfold retrieve_key. rewrite Haes.
  rewrite EntropyFacts.retrieve_key_entropy_eq, WalkFacts.bind_eq.
  fold (entropy_buffer h). f_equal.
  rewrite OpenKey_device.
  destruct (open_path (HKEY_CURRENT_USER h) device_path) as [dev|];
    [|reflexivity].
  unfold except_WindowsError. rewrite WalkFacts.bind_eq.
  unfold QueryValueEx. cbn [hpath hnode].
  destruct (assoc "key"%string (values dev)) as [device|]; [|reflexivity].
  unfold tell, ret. cbn [bind app].
  unfold CryptUnprotectData, tell.
  destruct (crypt32_CryptUnprotectData h device (entropy_buffer h))
    as [keykey|]; [|reflexivity].
  unfold ret. cbn [bind app].
  destruct (bind (retrieve_key_userkey h)
              (fun userkey => retrieve_key_unwrap h aes keykey userkey))
    as [l r].
  reflexivity.
Qed.

(** X6: without a device key the function fails with "Adobe Digital
    Editions not activated", after it has probed the processor and asked
    for the volume and the user name, and before anything else: the
    failed open is its last call. *)
Theorem retrieve_key_not_activated (h : Host) (aes : AES) :
  _aes h = Some aes ->
  open_path (HKEY_CURRENT_USER h) device_path = None ->
  retrieve_key h
  = (entropy_calls h ++ [RegOpenKey [] DEVICE_KEY_PATH],
     Raise (ADEPTError "Adobe Digital Editions not activated")).
Proof.
  intros Haes Hdev. rewrite (retrieve_key_stages h Haes), Hdev. reflexivity.
Qed.

Lemma retrieve_key_not_activated_witness :
  outcome (retrieve_key
             (Doubles.windows_host (Some Doubles.plain_blocks)
                Doubles.empty_registry))
  = Raise (ADEPTError "Adobe Digital Editions not activated").
Proof.
  rewrite (@retrieve_key_not_activated
             (Doubles.windows_host (Some Doubles.plain_blocks)
                Doubles.empty_registry)
             Doubles.plain_blocks eq_refl eq_refl).
  reflexivity.
Defined.

(** X7: a device key without a value named [key] ends the function in
    [WindowsError], right after the read. *)
Theorem retrieve_key_device_without_value (h : Host) (aes : AES)
    (dev : RegKey) :
  _aes h = Some aes ->
  open_path (HKEY_CURRENT_USER h) device_path = Some dev ->
  assoc "key"%string (values dev) = None ->
  retrieve_key h = (entropy_calls h ++ device_events, Raise WindowsError).
Proof.
  intros Haes Hdev Hkey.
  rewrite (retrieve_key_stages h Haes), Hdev, Hkey. reflexivity.
Qed.

Lemma retrieve_key_device_without_value_witness :
  outcome (retrieve_key
             (Doubles.windows_host (Some Doubles.plain_blocks)
                (Doubles.hkcu_device_without_value
                   Doubles.activation_0003_0007)))
  = Raise WindowsError.
Proof.
  rewrite (@retrieve_key_device_without_value
             (Doubles.windows_host (Some Doubles.plain_blocks)
                (Doubles.hkcu_device_without_value
                   Doubles.activation_0003_0007))
             Doubles.plain_blocks (Key [] []) eq_refl eq_refl eq_refl).
  reflexivity.
Defined.

(** X8: when [CryptUnprotectData] refuses the device key under the
    entropy of lines 198-203, the function fails with "Failed to decrypt
    user key key (sic)" and the activation key is never opened. *)
Theorem retrieve_key_unprotect_refused (h : Host) (aes : AES)
    (dev : RegKey) (device : str) :
  _aes h = Some aes ->
  open_path (HKEY_CURRENT_USER h) device_path = Some dev ->
  assoc "key"%string (values dev) = Some device ->
  crypt32_CryptUnprotectData h device (entropy_buffer h) = None ->
  retrieve_key h
  = (entropy_calls h ++ device_events ++ [CallCryptUnprotectData],
     Raise (ADEPTError "Failed to decrypt user key key (sic)"))
  /\ ~ In (RegOpenKey [] PRIVATE_LICENCE_KEY_PATH) (trace (retrieve_key h)).
Proof.
  intros Haes Hdev Hkey Hcrypt.
  assert (H : retrieve_key h
              = (entropy_calls h ++ device_events ++ [CallCryptUnprotectData],
                 Raise (ADEPTError "Failed to decrypt user key key (sic)"))).
  { rewrite (retrieve_key_stages h Haes), Hdev, Hkey, Hcrypt. reflexivity. }
  split; [exact H|]. rewrite H. unfold trace. cbn [fst].
  rewrite !in_app_iff. unfold entropy_calls. rewrite in_app_iff, in_map_iff.
  intros [[Hin|[x [Hx _]]]|[Hin|Hin]].
  - cbn in Hin. intuition discriminate.
  - discriminate.
  - unfold device_events in Hin. cbn [In] in Hin.
    destruct Hin as [Hin|[Hin|[]]]; [|discriminate].
    injection Hin as Hin. vm_compute in Hin. discriminate.
  - cbn in Hin. intuition discriminate.
Qed.

Lemma retrieve_key_unprotect_refused_witness :
  outcome (retrieve_key
             (Doubles.windows_host_sealed
                (Doubles.hkcu Doubles.sample_keykey
                   Doubles.activation_0003_0007)))
  = Raise (ADEPTError "Failed to decrypt user key key (sic)").
Proof.
  rewrite (proj1 (@retrieve_key_unprotect_refused
             (Doubles.windows_host_sealed
                (Doubles.hkcu Doubles.sample_keykey
                   Doubles.activation_0003_0007))
             Doubles.plain_blocks
             (Key [("key"%string, Doubles.sample_keykey)] [])
             Doubles.sample_keykey eq_refl eq_refl eq_refl eq_refl)).
  reflexivity.
Defined.

Lemma retrieve_key_userkey_trace (h : Host) :
  Forall (fun e => registry_event e = true) (trace (retrieve_key_userkey h)).
Proof.
  assert (Hopen : forall key sub,
            Forall (fun e => registry_event e = true) (fst (OpenKey key sub))).
  { intros key sub. unfold OpenKey, tell. rewrite bind_trace. cbn [fst snd].
    apply Forall_app. split; [repeat constructor|].
    destruct (open_path _ _); constructor. }
  assert (Hquery : forall key name,
            Forall (fun e => registry_event e = true)
                   (fst (QueryValueEx key name))).
  { intros key name. unfold QueryValueEx, tell. rewrite bind_trace.
    cbn [fst snd]. apply Forall_app. split; [repeat constructor|].
    destruct (assoc _ _); constructor. }
  assert (Hexcept : forall (A : Type) (m : M A),
            fst (except_WindowsError m) = fst m).
  { intros A [l [a|[]]]; reflexivity. }
  assert (Hinner : forall P rest uk,
            Forall (fun e => registry_event e = true)
                   (fst (scan_plkparent P rest uk))).
  { intros P rest uk. induction rest as [|j rest IH]; [constructor|].
    cbn [scan_plkparent]. rewrite bind_trace, Hexcept.
    apply Forall_app. split; [apply Hopen|].
    destruct (snd (except_WindowsError _)) as [[plkkey|]|e]; try constructor.
    rewrite bind_trace. apply Forall_app. split; [apply Hquery|].
    destruct (snd (QueryValueEx plkkey None)) as [ktype|e]; [|constructor].
    destruct (negb _); [exact IH|].
    rewrite bind_trace. apply Forall_app. split; [apply Hquery|].
    destruct (snd _); constructor. }
  assert (Houter : forall R rest uk,
            Forall (fun e => registry_event e = true)
                   (fst (scan_plkroot R rest uk))).
  { intros R rest. induction rest as [|i rest IH]; intros uk; [constructor|].
    cbn [scan_plkroot]. rewrite bind_trace, Hexcept.
    apply Forall_app. split; [apply Hopen|].
    destruct (snd (except_WindowsError _)) as [[plkparent|]|e];
      try constructor.
    rewrite bind_trace. apply Forall_app. split; [apply Hquery|].
    destruct (snd (QueryValueEx plkparent None)) as [ktype|e]; [|constructor].
    destruct (negb _); [apply IH|].
    rewrite bind_trace. apply Forall_app. split; [apply Hinner|].
    destruct (snd _) as [[v|]|e]; try constructor. apply IH. }
  unfold trace, retrieve_key_userkey. rewrite bind_trace, Hexcept.
  apply Forall_app. split; [apply Hopen|].
  destruct (snd (except_WindowsError _)) as [[plkroot|]|e]; try constructor.
  rewrite bind_trace. apply Forall_app. split; [apply Houter|].
  destruct (snd _) as [[v|]|e]; constructor.
Qed.

Lemma not_in_entropy_calls (h : Host) (e : event) :
  registry_event e = true \/ e = CallCryptUnprotectData \/ e = CallAesDecrypt ->
  ~ In e (entropy_calls h).
Proof.
  intros He Hin. unfold entropy_calls in Hin.
  apply in_app_iff in Hin as [Hin|Hin].
  - cbn [In] in Hin.
    destruct Hin as [<-|[<-|[<-|[<-|[]]]]];
      destruct He as [He|[He|He]]; discriminate.
  - apply in_map_iff in Hin as [x [<- _]].
    destruct He as [He|[He|He]]; discriminate.
Qed.

(** X9: the order of the stages. The secret-protection service is called
    only with the value [key] of an existing device key; the activation
    key is opened only after the service returned a key-encryption key
    for that value and the entropy; and the cipher is called only after
    the walk returned a licence key. *)
Theorem retrieve_key_stage_order (h : Host) :
  (In CallCryptUnprotectData (trace (retrieve_key h)) ->
     exists dev device,
       open_path (HKEY_CURRENT_USER h) device_path = Some dev
       /\ assoc "key"%string (values dev) = Some device)
  /\ (In (RegOpenKey [] PRIVATE_LICENCE_KEY_PATH) (trace (retrieve_key h)) ->
        exists dev device keykey,
          open_path (HKEY_CURRENT_USER h) device_path = Some dev
          /\ assoc "key"%string (values dev) = Some device
          /\ crypt32_CryptUnprotectData h device (entropy_buffer h)
             = Some keykey)
  /\ (In CallAesDecrypt (trace (retrieve_key h)) ->
        exists userkey, outcome (retrieve_key_userkey h) = Ok userkey).
Proof.
  destruct (_aes h) as [aes|] eqn:Haes.
  2:{ unfold retrieve_key. rewrite Haes. unfold trace, raise. cbn [fst In].
      repeat split; intros []. }
  rewrite (retrieve_key_stages h Haes). unfold trace, prepend. cbn [fst].
  assert (Hpath : RegOpenKey [] DEVICE_KEY_PATH
                  <> RegOpenKey [] PRIVATE_LICENCE_KEY_PATH).
  { intros H. injection H as H. vm_compute in H. discriminate. }
  assert (Hdevice : forall e,
            e = CallCryptUnprotectData
            \/ e = RegOpenKey [] PRIVATE_LICENCE_KEY_PATH
            \/ e = CallAesDecrypt ->
            ~ In e device_events).
  { intros e He Hin. unfold device_events in Hin. cbn [In] in Hin.
    destruct Hin as [<-|[<-|[]]]; destruct He as [He|[He|He]];
      try discriminate; try (now apply Hpath). }
  destruct (open_path (HKEY_CURRENT_USER h) device_path) as [dev|] eqn:Hdev.
  2:{ cbn [fst]. repeat split; intros Hin;
      apply in_app_iff in Hin as [Hin|Hin];
      try (apply not_in_entropy_calls in Hin; [contradiction|auto]);
      cbn [In] in Hin; destruct Hin as [Hin|[]]; try discriminate;
      try (now apply Hpath in Hin). }
  destruct (assoc "key"%string (values dev)) as [device|] eqn:Hkey.
  2:{ cbn [fst]. repeat split; intros Hin;
      apply in_app_iff in Hin as [Hin|Hin];
      try (apply not_in_entropy_calls in Hin; [contradiction|auto]);
      apply Hdevice in Hin; auto; contradiction. }
  destruct (crypt32_CryptUnprotectData h device (entropy_buffer h))
    as [keykey|] eqn:Hcrypt.
  2:{ cbn [fst]. repeat split; intros Hin.
      - exists dev, device. split; [reflexivity|exact Hkey].
      - apply in_app_iff in Hin as [Hin|Hin];
          [apply not_in_entropy_calls in Hin; [contradiction|auto]|].
        apply in_app_iff in Hin as [Hin|Hin];
          [apply Hdevice in Hin; auto; contradiction|].
        cbn [In] in Hin. destruct Hin as [Hin|[]]. discriminate.
      - apply in_app_iff in Hin as [Hin|Hin];
          [apply not_in_entropy_calls in Hin; [contradiction|auto]|].
        apply in_app_iff in Hin as [Hin|Hin];
          [apply Hdevice in Hin; auto; contradiction|].
        cbn [In] in Hin. destruct Hin as [Hin|[]]. discriminate. }
  split; [intros _; exists dev, device; split; [reflexivity|exact Hkey]|].
  split; [intros _; exists dev, device, keykey;
          split; [reflexivity|split; [exact Hkey|exact Hcrypt]]|].
  intros Hin. cbn [fst] in Hin.
  apply in_app_iff in Hin as [Hin|Hin];
    [apply not_in_entropy_calls in Hin; [contradiction|auto]|].
  apply in_app_iff in Hin as [Hin|Hin].
  { apply in_app_iff in Hin as [Hin|Hin];
      [apply Hdevice in Hin; auto; contradiction|].
    cbn [In] in Hin. destruct Hin as [Hin|[]]. discriminate. }
  rewrite bind_trace in Hin.
  apply in_app_iff in Hin as [Hin|Hin].
  { pose proof (retrieve_key_userkey_trace h) as Hreg.
    rewrite Forall_forall in Hreg. apply Hreg in Hin. discriminate. }
  unfold outcome. destruct (snd (retrieve_key_userkey h)) as [userkey|e].
  - now exists userkey.
  - destruct Hin.
Qed.

(** X10: from the registry and the host to the key. With a device key
    that the service unwraps under the entropy of lines 198-203, and a
    first licence-key leaf whose payload decodes and decrypts to a
    plaintext with a last byte N of at least 1, the function returns that
    plaintext without its first 26 and its last N bytes; the cipher call
    is its last call. *)
Theorem retrieve_key_end_to_end (h : Host) (aes : AES) (dev root : RegKey)
    (device keykey userkey data front : str) (last : ascii) (i j : nat) :
  _aes h = Some aes ->
  open_path (HKEY_CURRENT_USER h) device_path = Some dev ->
  assoc "key"%string (values dev) = Some device ->
  crypt32_CryptUnprotectData h device (entropy_buffer h) = Some keykey ->
  open_path (HKEY_CURRENT_USER h) activation_path = Some root ->
  first_licence_key root i j userkey = true ->
  base64_decode h userkey = Some data ->
  valid_key_length (List.length keykey) = true ->
  Nat.modulo (List.length data) block_size = 0%nat ->
  cbc_decrypt aes keykey default_IV data = front ++ [last] ->
  1 <= ord last ->
  retrieve_key h
  = (entropy_calls h ++ device_events ++ [CallCryptUnprotectData]
     ++ trace (retrieve_key_userkey h) ++ [CallAesDecrypt],
     Ok (drop_last (Z.to_nat (ord last)) (skipn 26 (front ++ [last])))).
Proof.
  intros Haes Hdev Hkey Hcrypt Hroot Hfirst Hdec Hlen Hmod Hplain Hpad.
  rewrite (retrieve_key_stages h Haes), Hdev, Hkey, Hcrypt.
  pose proof (proj1 (@WalkFacts.retrieve_key_userkey_found h root i j userkey
                       Hroot Hfirst)) as Hwalk.
  destruct (retrieve_key_userkey h) as [tr r].
  unfold outcome in Hwalk. cbn [snd] in Hwalk. rewrite Hwalk.
  rewrite WalkFacts.bind_eq.
  rewrite (UnwrapFacts.retrieve_key_unwrap_steps h aes _ _ Hdec Hlen Hmod).
  rewrite Hplain, UnwrapFacts.depad_last, slice_26_neg by exact Hpad.
  unfold prepend, trace. cbn [fst snd]. now rewrite <- !app_assoc.
Qed.

Lemma retrieve_key_end_to_end_witness :
  outcome (retrieve_key
             (Doubles.windows_host (Some Doubles.plain_blocks)
                (Doubles.hkcu (b "0123456789abcdefXYZ")
                   Doubles.activation_0003_0007)))
  = Ok (repeat zero 3).
Proof.
  rewrite (@retrieve_key_end_to_end
             (Doubles.windows_host (Some Doubles.plain_blocks)
                (Doubles.hkcu (b "0123456789abcdefXYZ")
                   Doubles.activation_0003_0007))
             Doubles.plain_blocks
             (Key [("key"%string, b "0123456789abcdefXYZ")] [])
             Doubles.activation_0003_0007
             (b "0123456789abcdefXYZ") Doubles.sample_keykey
             Doubles.wrapped_31A_B
             (repeat "A"%char 31 ++ ["B"%char])
             (repeat "A"%char 16 ++ repeat zero 15) (chr 3) 3 7).
  - reflexivity.
  - reflexivity.
  - reflexivity.
  - reflexivity.
  - vm_compute. reflexivity.
  - reflexivity.
  - vm_compute. reflexivity.
  - vm_compute. reflexivity.
  - reflexivity.
  - reflexivity.
  - vm_compute. reflexivity.
  - vm_compute. discriminate.
Defined.

(** X11: a wrapped value that decodes to nothing decrypts to nothing, and
    the read of the last byte then raises [IndexError]. *)
Theorem retrieve_key_unwrap_empty (h : Host) (aes : AES)
    (keykey userkey : str) :
  base64_decode h userkey = Some [] ->
  valid_key_length (List.length keykey) = true ->
  retrieve_key_unwrap h aes keykey userkey
  = ([CallAesDecrypt], Raise IndexError).
Proof.
  intros Hdec Hlen.
  rewrite (UnwrapFacts.retrieve_key_unwrap_steps h aes _ _ Hdec Hlen eq_refl).
  reflexivity.
Qed.

Lemma retrieve_key_unwrap_empty_witness :
  retrieve_key_unwrap (Doubles.windows_host None Doubles.empty_registry)
    Doubles.plain_blocks Doubles.sample_keykey []
  = ([CallAesDecrypt], Raise IndexError).
Proof.
  apply retrieve_key_unwrap_empty; reflexivity.
Defined.

(** X12: line 240 undoes block padding. A buffer made of a 26-byte
    header, a key, and a pad whose last byte counts the bytes of the pad
    gives back the key. *)
Theorem depad_padded (header key pad : str) (c : ascii) :
  List.length header = 26%nat ->
  ord c = Z.of_nat (S (List.length pad)) ->
  depad (header ++ key ++ pad ++ [c]) = Ok key.
Proof.
  intros Hheader Hc.
  replace (header ++ key ++ pad ++ [c]) with ((header ++ key ++ pad) ++ [c])
    by now rewrite <- !app_assoc.
  rewrite UnwrapFacts.depad_last, slice_26_neg by lia.
  rewrite Hc, Nat2Z.id. unfold drop_last.
  rewrite <- !app_assoc.
  rewrite skipn_app, Hheader, Nat.sub_diag, skipn_all2 by lia.
  cbn [skipn app]. rewrite !length_app. cbn [List.length].
  replace (List.length key + (List.length pad + 1) - S (List.length pad))%nat
    with (List.length key + 0)%nat by lia.
  rewrite firstn_app_2. cbn [firstn]. now rewrite app_nil_r.
Qed.

Lemma depad_padded_witness :
  depad (repeat "H"%char 26 ++ b "the key" ++ repeat (chr 3) 2 ++ [chr 3])
  = Ok (b "the key").
Proof.
  apply depad_padded; reflexivity.
Defined.

End StageFacts.

(* ================================================================== *)
(** * Locating and reading the activation record (lines 255-283) *)
(* ================================================================== *)

Module LocateFacts.
Import Py Effects Mac Described Observed PyFacts.

Lemma find_in_step (h : Host) (domain : Z) (domains : list Z)
    (subpath : string) :
  find_app_support_file_in h (domain :: domains) subpath
  = match FSFindFolder h domain with
    | None =>
        prepend [CallFSFindFolder domain]
          (find_app_support_file_in h domains subpath)
    | Some folder =>
        if isfile h (path_join folder subpath)
        then ([CallFSFindFolder domain;
               CallIsFile (path_join folder subpath)],
              Ok (Some (path_join folder subpath)))
        else prepend [CallFSFindFolder domain;
                      CallIsFile (path_join folder subpath)]
               (find_app_support_file_in h domains subpath)
    end.
Proof.
  cbn [find_app_support_file_in]. unfold find_folder, tell, ret.
  cbn [bind app].
  destruct (FSFindFolder h domain) as [folder|].
  - destruct (isfile h (path_join folder subpath)); [reflexivity|].
    unfold prepend.
    destruct (find_app_support_file_in h domains subpath); reflexivity.
  - unfold prepend.
    destruct (find_app_support_file_in h domains subpath); reflexivity.
Qed.

(** X13: the user domain wins. When the user-domain support folder holds
    the file, that path is returned after two calls, and the local domain
    is not asked. *)
Theorem find_app_support_file_user_first (h : Host)
    (subpath folder : string) :
  FSFindFolder h kUserDomain = Some folder ->
  isfile h (path_join folder subpath) = true ->
  find_app_support_file h subpath
  = ([CallFSFindFolder kUserDomain; CallIsFile (path_join folder subpath)],
     Ok (Some (path_join folder subpath))).
Proof.
  intros Hfolder Hfile. unfold find_app_support_file.
  now rewrite find_in_step, Hfolder, Hfile.
Qed.

Lemma find_app_support_file_user_first_witness :
  find_app_support_file (Doubles.mac_host Doubles.record_with_key)
    ACTIVATION_PATH
  = ([CallFSFindFolder kUserDomain;
      CallIsFile
        "/Users/reader/Library/Application Support/Adobe/Digital Editions/activation.dat"],
     Ok (Some
        "/Users/reader/Library/Application Support/Adobe/Digital Editions/activation.dat"%string)).
Proof.
  apply (@find_app_support_file_user_first
           (Doubles.mac_host Doubles.record_with_key) ACTIVATION_PATH
           Doubles.support_folder); reflexivity.
Defined.

(** X14: what [find_app_support_file] returns: the file the user domain
    offers, else the file the local domain offers, else [None]. A path it
    returns is one for which [os.path.isfile] held, and [isfile] is asked
    only about paths under a support folder that was found. *)
Theorem find_app_support_file_result (h : Host) (subpath : string) :
  outcome (find_app_support_file h subpath)
  = Ok (match offered h subpath kUserDomain with
        | Some path => Some path
        | None => offered h subpath kLocalDomain
        end)
  /\ (forall path,
        outcome (find_app_support_file h subpath) = Ok (Some path) ->
        isfile h path = true)
  /\ (forall path,
        In (CallIsFile path) (trace (find_app_support_file h subpath)) ->
        exists domain folder,
          In domain [kUserDomain; kLocalDomain]
          /\ FSFindFolder h domain = Some folder
          /\ path = path_join folder subpath).
Proof.
  unfold find_app_support_file, offered, outcome, trace.
  rewrite !find_in_step. cbn [find_app_support_file_in]. unfold ret.
  destruct (FSFindFolder h kUserDomain) as [fu|] eqn:Hu;
    destruct (FSFindFolder h kLocalDomain) as [fl|] eqn:Hl;
    try destruct (isfile h (path_join fu subpath)) eqn:Hfu;
    try destruct (isfile h (path_join fl subpath)) eqn:Hfl;
    unfold prepend; cbn [fst snd app];
    (split; [reflexivity|]); (split;
      [intros path Hp; try discriminate; injection Hp as <-; assumption|]);
    intros path Hin; cbn [In] in Hin;
    repeat match goal with
           | H : _ \/ _ |- _ => destruct H
           | H : False |- _ => destruct H
           | H : CallFSFindFolder _ = CallIsFile _ |- _ => discriminate H
           | H : CallIsFile _ = CallIsFile _ |- _ => injection H as <-
           end;
    try (exists kUserDomain, fu; cbn [In]; now auto);
    try (exists kLocalDomain, fl; cbn [In]; now auto).
Qed.

(** X15: when neither domain offers the file, [retrieve_key] fails with
    "Could not locate ADE activation" and nothing is parsed. *)
Theorem retrieve_key_without_record (h : Host) :
  offered h ACTIVATION_PATH kUserDomain = None ->
  offered h ACTIVATION_PATH kLocalDomain = None ->
  outcome (retrieve_key h)
  = Raise (ADEPTError "Could not locate ADE activation")
  /\ forall path, ~ In (CallParse path) (trace (retrieve_key h)).
Proof.
  intros Huser Hlocal. unfold offered in Huser, Hlocal.
  unfold retrieve_key, outcome, trace, find_app_support_file.
  rewrite !find_in_step. cbn [find_app_support_file_in]. unfold ret, raise.
  destruct (FSFindFolder h kUserDomain) as [fu|];
    destruct (FSFindFolder h kLocalDomain) as [fl|];
    try (destruct (isfile h (path_join fu ACTIVATION_PATH));
         [discriminate Huser|]);
    try (destruct (isfile h (path_join fl ACTIVATION_PATH));
         [discriminate Hlocal|]);
    unfold prepend; cbn [bind fst snd app];
    (split; [reflexivity|]); intros path Hin; cbn [In] in Hin;
    repeat match goal with
           | H : _ \/ _ |- _ => destruct H
           | H : False |- _ => destruct H
           | H : _ = CallParse _ |- _ => discriminate H
           end.
Qed.

Lemma retrieve_key_without_record_witness :
  outcome (retrieve_key Doubles.mac_host_without_file)
  = Raise (ADEPTError "Could not locate ADE activation").
Proof.
  apply (proj1 (@retrieve_key_without_record Doubles.mac_host_without_file
                  eq_refl eq_refl)).
Defined.






(** X17: a stored value of 26 bytes or fewer gives the empty key, not an
    error: the slice [userkey[26:]] of a short string is empty. *)
Theorem retrieve_key_short_value (h : Host) (actpath : string)
    (record : Element) (T data : str) :
  outcome (find_app_support_file h ACTIVATION_PATH) = Ok (Some actpath) ->
  parse h actpath = Some record ->
  (exists e, at_licence_key_path record e) ->
  (forall e, at_licence_key_path record e -> element_text e = T) ->
  base64_decode h T = Some data ->
  (List.length data <= 26)%nat ->
  outcome (retrieve_key h) = Ok [].
Proof.
  intros Hloc Hparse Hex Hall Hdec Hshort.
  rewrite (RecordFacts.retrieve_key_located h Hloc), Hparse.
  rewrite (RecordFacts.findtext_present Hex Hall).
  unfold decode_base64. rewrite Hdec. f_equal.
  etransitivity; [apply (slice_from data 26)|]. now apply skipn_all2.
Qed.

Lemma retrieve_key_short_value_witness :
  outcome (retrieve_key (Doubles.mac_host Doubles.record_with_short_key))
  = Ok [].
Proof.
  apply (@retrieve_key_short_value
           (Doubles.mac_host Doubles.record_with_short_key)
           (path_join Doubles.support_folder ACTIVATION_PATH)
           Doubles.record_with_short_key (b "QUFB") (b "AAA")).
  - vm_compute. reflexivity.
  - reflexivity.
  - exists (Doubles.licence_key_element (b "QUFB")).
    apply RecordFacts.In_findall. vm_compute. now left.
  - intros e He. apply RecordFacts.In_findall in He. vm_compute in He.
    destruct He as [<-|[]]. reflexivity.
  - vm_compute. reflexivity.
  - vm_compute. lia.
Defined.

End LocateFacts.

(* ================================================================== *)
(** * Where the walk gives up (lines 216-235) *)
(* ================================================================== *)

Module BreakFacts.
Import Py Effects Windows Described Observed PyFacts Tree WalkFacts.
Local Open Scope nat_scope.

Lemma broken_leaf_inv (nd : RegKey) (j : nat) :
  broken_leaf nd j = true ->
  exists lf, subkey nd j = Some lf
    /\ (type_tag lf = None
        \/ exists t, type_tag lf = Some t
             /\ str_eqb t (b "privateLicenseKey") = true
             /\ named_value lf = None).
Proof.
  unfold broken_leaf. destruct (subkey nd j) as [lf|]; [|discriminate].
  intros H. exists lf. split; [reflexivity|].
  destruct (type_tag lf) as [t|]; [|now left].
  right. exists t. apply andb_true_iff in H as [Ht Hv].
  destruct (named_value lf); [discriminate|]. auto.
Qed.

Lemma scan_plkparent_breaks (P : HKEY) (uk : option str) (j : nat) :
  j < 16 ->
  broken_leaf (hnode P) j = true ->
  forall d a, a + d = 16 -> a <= j ->
  (forall k, a <= k < j -> other_leaf (hnode P) k = true) ->
  outcome (scan_plkparent P (seq a d) uk) = Raise WindowsError.
Proof.
  intros Hj Hbroken. apply broken_leaf_inv in Hbroken as [lf [Hlf Hcase]].
  induction d as [|d IH]; intros a Had Haj Hskip; [lia|].
  cbn [seq]. rewrite scan_plkparent_cons by lia.
  destruct (Nat.eq_dec a j) as [->|Hne].
  - rewrite Hlf. destruct Hcase as [->|[t [-> [-> ->]]]]; reflexivity.
  - destruct (other_leaf_inv (hnode P) a (Hskip a ltac:(lia)))
      as [lf' [t' [-> [-> ->]]]].
    unfold prepend, outcome. cbn [snd].
    apply (IH (S a)); try lia. intros k Hk. apply Hskip. lia.
Qed.

Lemma scan_plkparent_raises_inv (P : HKEY) :
  forall d a, a + d = 16 ->
  forall e, outcome (scan_plkparent P (seq a d) None) = Raise e ->
  exists j, a <= j < 16
    /\ (forall k, a <= k < j -> other_leaf (hnode P) k = true)
    /\ broken_leaf (hnode P) j = true.
Proof.
  induction d as [|d IH]; intros a Had e Hraise; [discriminate|].
  cbn [seq] in Hraise. rewrite scan_plkparent_cons in Hraise by lia.
  destruct (subkey (hnode P) a) as [lf|] eqn:Hlf; [|discriminate].
  destruct (type_tag lf) as [t|] eqn:Ht.
  - destruct (str_eqb t (b "privateLicenseKey")) eqn:Heq.
    + destruct (named_value lf) as [v|] eqn:Hv; [discriminate|].
      exists a. split; [lia|]. split; [intros k Hk; lia|].
      unfold broken_leaf. now rewrite Hlf, Ht, Heq, Hv.
    + unfold prepend, outcome in Hraise. cbn [snd] in Hraise.
      destruct (IH (S a) ltac:(lia) e Hraise) as [j [Hj [Hskip Hbroken]]].
      exists j. split; [lia|]. split; [|exact Hbroken].
      intros k Hk. destruct (Nat.eq_dec k a) as [->|Hne].
      * unfold other_leaf. now rewrite Hlf, Ht, Heq.
      * apply Hskip. lia.
  - exists a. split; [lia|]. split; [intros k Hk; lia|].
    unfold broken_leaf. now rewrite Hlf, Ht.
Qed.

Lemma breaks_under_iff (nd : RegKey) :
  existsb (breaks_under nd) (seq 0 16) = true <->
  exists j, j < 16 /\ (forall k, k < j -> other_leaf nd k = true)
            /\ broken_leaf nd j = true.
Proof.
  rewrite existsb_exists. unfold breaks_under. split.
  - intros [j [_ H]]. apply andb_true_iff in H as [H Hb].
    apply andb_true_iff in H as [Hj Hskip].
    apply Nat.ltb_lt in Hj. exists j. split; [exact Hj|]. split; [|exact Hb].
    intros k Hk. apply (proj1 (forallb_seq _ 0 j) Hskip). lia.
  - intros [j [Hj [Hskip Hb]]]. exists j. split; [apply in_seq; lia|].
    rewrite Hb, (proj2 (Nat.ltb_lt j 16) Hj), andb_true_r. cbn [andb].
    apply forallb_seq. intros k Hk. apply Hskip. lia.
Qed.

Lemma scan_plkroot_breaks (R : HKEY) (i : nat) (nd : RegKey) :
  i < 16 ->
  subkey (hnode R) i = Some nd ->
  match type_tag nd with
  | None => true
  | Some t => str_eqb t (b "credentials")
              && existsb (breaks_under nd) (seq 0 16)
  end = true ->
  forall d a, a + d = 16 -> a <= i ->
  (forall k, a <= k < i -> passed_over (hnode R) k = true) ->
  outcome (scan_plkroot R (seq a d) None) = Raise WindowsError.
Proof.
  intros Hi Hnd Hcase.
  induction d as [|d IH]; intros a Had Hai Hpass; [lia|].
  cbn [seq]. rewrite scan_plkroot_cons by lia.
  destruct (Nat.eq_dec a i) as [->|Hne].
  - rewrite Hnd. destruct (type_tag nd) as [t|]; [|reflexivity].
    apply andb_true_iff in Hcase as [-> Hunder].
    apply breaks_under_iff in Hunder as [j [Hj [Hskip Hbroken]]].
    rewrite xrange_0_16.
    pose proof (@scan_plkparent_breaks (child_handle R i nd) None j Hj
                  Hbroken 16 0 eq_refl ltac:(lia)) as Hin.
    unfold outcome in Hin.
    destruct (scan_plkparent (child_handle R i nd) (seq 0 16) None)
      as [tr r]. cbn [snd] in Hin. rewrite Hin; [reflexivity|].
    intros k Hk. apply Hskip. lia.
  - destruct (passed_over_inv (hnode R) a (Hpass a ltac:(lia)))
      as [nd' [t' [-> [-> Hbarren]]]].
    assert (Hrest : outcome (scan_plkroot R (seq (S a) d) None)
                    = Raise WindowsError).
    { apply IH; try lia. intros k Hk. apply Hpass. lia. }
    destruct (str_eqb t' (b "credentials")) eqn:Heq.
    + rewrite xrange_0_16.
      destruct (@scan_plkparent_none (child_handle R a nd') None 16 0 eq_refl
                  (Hbarren eq_refl)) as [tr' [-> _]].
      unfold prepend, outcome. cbn [snd]. exact Hrest.
    + unfold prepend, outcome. cbn [snd]. exact Hrest.
Qed.

Lemma scan_plkroot_raises_inv (R : HKEY) :
  forall d a, a + d = 16 ->
  forall e, outcome (scan_plkroot R (seq a d) None) = Raise e ->
  exists i nd, a <= i < 16
    /\ (forall k, a <= k < i -> passed_over (hnode R) k = true)
    /\ subkey (hnode R) i = Some nd
    /\ match type_tag nd with
       | None => true
       | Some t => str_eqb t (b "credentials")
                   && existsb (breaks_under nd) (seq 0 16)
       end = true.
Proof.
  induction d as [|d IH]; intros a Had e Hraise; [discriminate|].
  cbn [seq] in Hraise. rewrite scan_plkroot_cons in Hraise by lia.
  destruct (subkey (hnode R) a) as [nd|] eqn:Hnd; [|discriminate].
  assert (Hstep : passed_over (hnode R) a = true ->
            outcome (scan_plkroot R (seq (S a) d) None) = Raise e ->
            exists i nd0, a <= i < 16
              /\ (forall k, a <= k < i -> passed_over (hnode R) k = true)
              /\ subkey (hnode R) i = Some nd0
              /\ match type_tag nd0 with
                 | None => true
                 | Some t => str_eqb t (b "credentials")
                             && existsb (breaks_under nd0) (seq 0 16)
                 end = true).
  { intros Ha Hrest.
    destruct (IH (S a) ltac:(lia) e Hrest) as [i [nd0 [Hi [Hpass Hrem]]]].
    exists i, nd0. split; [lia|]. split; [|exact Hrem].
    intros k Hk. destruct (Nat.eq_dec k a) as [->|]; [exact Ha|].
    apply Hpass. lia. }
  destruct (type_tag nd) as [t|] eqn:Ht.
  - destruct (str_eqb t (b "credentials")) eqn:Heq.
    + rewrite xrange_0_16 in Hraise.
      destruct (scan_plkparent (child_handle R a nd) (seq 0 16) None)
        as [tr [[v|]|e']] eqn:Hin; [discriminate| |].
      * apply Hstep; [|exact Hraise].
        pose proof (@scan_plkparent_sound (child_handle R a nd) 16 0 eq_refl
                      _ _ Hin) as Hbarren.
        unfold passed_over. rewrite Hnd, Ht, Heq. exact Hbarren.
      * exists a, nd. split; [lia|]. split; [intros k Hk; lia|].
        split; [exact Hnd|]. rewrite Ht, Heq. cbn [andb].
        apply breaks_under_iff.
        destruct (@scan_plkparent_raises_inv (child_handle R a nd) 16 0
                    eq_refl e') as [j [Hj [Hskip Hbroken]]].
        { unfold outcome. now rewrite Hin. }
        exists j. split; [lia|]. split; [|exact Hbroken].
        intros k Hk. apply Hskip. lia.
    + apply Hstep; [|exact Hraise].
      unfold passed_over. now rewrite Hnd, Ht, Heq.
  - exists a, nd. split; [lia|]. split; [intros k Hk; lia|].
    split; [exact Hnd|]. now rewrite Ht.
Qed.

Lemma breaks_at_iff (root : RegKey) (i : nat) :
  breaks_at root i = true <->
  i < 16 /\ (forall k, k < i -> passed_over root k = true)
  /\ exists nd, subkey root i = Some nd
       /\ match type_tag nd with
          | None => true
          | Some t => str_eqb t (b "credentials")
                      && existsb (breaks_under nd) (seq 0 16)
          end = true.
Proof.
  unfold breaks_at. rewrite !andb_true_iff, forallb_seq, Nat.ltb_lt. split.
  - intros [[Hi Hpass] Hnd]. split; [exact Hi|]. split.
    + intros k Hk. apply Hpass. lia.
    + destruct (subkey root i) as [nd|]; [|discriminate].
      exists nd. split; [reflexivity|exact Hnd].
  - intros [Hi [Hpass [nd [-> Hnd]]]]. split; [split|exact Hnd].
    + exact Hi.
    + intros k Hk. apply Hpass. lia.
Qed.

Lemma scan_plkroot_raises_iff (root : RegKey) :
  outcome (scan_plkroot (activation_handle root) (seq 0 16) None)
  = Raise WindowsError
  <-> exists i, breaks_at root i = true.
Proof.
  split.
  - intros Hraise.
    destruct (@scan_plkroot_raises_inv (activation_handle root) 16 0 eq_refl
                WindowsError Hraise) as [i [nd [Hi [Hpass [Hnd Hcase]]]]].
    cbn [activation_handle hnode] in Hpass, Hnd.
    exists i. apply (proj2 (breaks_at_iff root i)). split; [lia|]. split.
    + intros k Hk. apply Hpass. lia.
    + exists nd. split; [exact Hnd|exact Hcase].
  - intros [i Hbreak].
    apply (proj1 (breaks_at_iff root i)) in Hbreak
      as [Hi [Hpass [nd [Hnd Hcase]]]].
    apply (@scan_plkroot_breaks (activation_handle root) i nd Hi Hnd
             Hcase 16 0 eq_refl ltac:(lia)).
    intros k Hk. apply Hpass. lia.
Qed.

(** X18: the walk ends in [WindowsError] exactly when, before any licence
    key is found, it reaches a node without a type tag, or a leaf without
    a type tag, or a licence-key leaf without a value named [value]: the
    reads of lines 221, 229 and 232 are not guarded, and nothing else in
    the walk raises that error. *)
Theorem walk_breaks (h : Host) (root : RegKey) :
  open_path (HKEY_CURRENT_USER h) activation_path = Some root ->
  (outcome (retrieve_key_userkey h) = Raise WindowsError
   <-> exists i, breaks_at root i = true).
Proof.
  intros Hopen. rewrite <- (scan_plkroot_raises_iff root).
  rewrite (retrieve_key_userkey_open h Hopen).
  unfold outcome, prepend, insist.
  destruct (scan_plkroot (activation_handle root) (seq 0 16) None)
    as [tr [[v|]|e]]; cbn [snd]; split; intros H;
    try discriminate H; injection H as ->; reflexivity.
Qed.

Lemma walk_breaks_witness :
  outcome (retrieve_key_userkey
             (Doubles.windows_host None
                (Doubles.hkcu (b "device") Doubles.activation_untagged_first)))
  = Raise WindowsError.
Proof.
  refine (proj2 (@walk_breaks
                  (Doubles.windows_host None
                     (Doubles.hkcu (b "device")
                        Doubles.activation_untagged_first))
                  Doubles.activation_untagged_first _) _).
  - vm_compute. reflexivity.
  - exists 0. vm_compute. reflexivity.
Defined.

End BreakFacts.

(* ================================================================== *)
(** * The failures of [retrieve_key], on both platforms *)
(* ================================================================== *)

Module FamilyFacts.
Import Py Effects Described Observed PyFacts Tree.







End FamilyFacts.
